(** * pypbo.perf.metrics: risk-adjusted performance ratios

    A shallow embedding of [pypbo/perf/metrics.py] and the properties
    its specification states about it.

    Numbers.  The program computes on IEEE binary64 values (Python
    [float], [numpy.float64]).  They are embedded as exact real numbers
    extended with the three special values the program can observe:
    [+inf], [-inf] and [NaN] (which pandas and numpy also use as the
    "missing" marker).  Finite arithmetic is exact (no rounding, no
    overflow, a single unsigned zero); the special values follow the
    IEEE rules.  Exact arithmetic never turns a non-zero result into
    zero, binary64 does: where a property depends on it ([LPM] being
    zero), the underflow is part of the model ([F64.underflow],
    [LPM_binary64]).

    Python.  Functions that can raise return a [result]; an exception
    carries its traceback, the list of frames from the entry point
    down to the frame that raised.  Python scalars and numpy scalars
    are kept apart where the source's behaviour depends on it (true
    division by zero raises for the former and yields inf/nan for the
    latter).

    Containers.  The source dispatches with [isinstance] on
    [numpy.ndarray], [pandas.Series] and [pandas.DataFrame]; the three
    are constructors of [container]. *)

From Stdlib Require Import Reals Lra Lia ZArith String Bool List.
Import ListNotations.

Open Scope R_scope.

(** ** Extended binary64 values *)

Module F64.

Inductive f64 : Type :=
| Fin (x : R)
| PInf
| NInf
| NaN.

Definition Rltb (x y : R) : bool := if Rlt_dec x y then true else false.
Definition Rleb (x y : R) : bool := if Rle_dec x y then true else false.
Definition Reqb (x y : R) : bool := if Req_dec_T x y then true else false.

Definition isnan (v : f64) : bool :=
  match v with NaN => true | _ => false end.

Definition notnan (v : f64) : bool := negb (isnan v).

Definition neg (v : f64) : f64 :=
  match v with
  | Fin x => Fin (- x)
  | PInf => NInf
  | NInf => PInf
  | NaN => NaN
  end.

Definition add (a b : f64) : f64 :=
  match a, b with
  | NaN, _ | _, NaN => NaN
  | Fin x, Fin y => Fin (x + y)
  | PInf, NInf | NInf, PInf => NaN
  | PInf, _ | _, PInf => PInf
  | NInf, _ | _, NInf => NInf
  end.

Definition sub (a b : f64) : f64 := add a (neg b).

(** The infinity whose sign is the sign of [x]; [NaN] at zero. *)
Definition signed_inf (x : R) : f64 :=
  if Rltb 0 x then PInf else if Rltb x 0 then NInf else NaN.

Definition mul (a b : f64) : f64 :=
  match a, b with
  | NaN, _ | _, NaN => NaN
  | Fin x, Fin y => Fin (x * y)
  | PInf, Fin y | Fin y, PInf => signed_inf y
  | NInf, Fin y | Fin y, NInf => signed_inf (- y)
  | PInf, PInf | NInf, NInf => PInf
  | PInf, NInf | NInf, PInf => NInf
  end.

(** numpy's true division: a zero divisor gives an infinity (or [NaN]
    for [0/0]), never an exception. *)
Definition div (a b : f64) : f64 :=
  match a, b with
  | NaN, _ | _, NaN => NaN
  | Fin x, Fin y => if Reqb y 0 then signed_inf x else Fin (x / y)
  | Fin _, (PInf | NInf) => Fin 0
  | PInf, Fin y => if Rltb y 0 then NInf else PInf
  | NInf, Fin y => if Rltb y 0 then PInf else NInf
  | (PInf | NInf), (PInf | NInf) => NaN
  end.

Definition sqrt (a : f64) : f64 :=
  match a with
  | Fin x => if Rltb x 0 then NaN else Fin (R_sqrt.sqrt x)
  | PInf => PInf
  | NInf | NaN => NaN
  end.

(** [numpy.log] *)
Definition log (a : f64) : f64 :=
  match a with
  | Fin x => if Rltb 0 x then Fin (ln x) else if Reqb x 0 then NInf else NaN
  | PInf => PInf
  | NInf | NaN => NaN
  end.

(** [numpy.exp] *)
Definition exp (a : f64) : f64 :=
  match a with
  | Fin x => Fin (Rtrigo_def.exp x)
  | PInf => PInf
  | NInf => Fin 0
  | NaN => NaN
  end.

(** [numpy.maximum]: the larger value, [NaN] if either is. *)
Definition maximum (a b : f64) : f64 :=
  match a, b with
  | NaN, _ | _, NaN => NaN
  | PInf, _ | _, PInf => PInf
  | NInf, v | v, NInf => v
  | Fin x, Fin y => Fin (Rmax x y)
  end.

(** Comparisons; any comparison with [NaN] is false. *)
Definition ltb (a b : f64) : bool :=
  match a, b with
  | NaN, _ | _, NaN => false
  | _, NInf => false
  | PInf, _ => false
  | NInf, _ => true
  | _, PInf => true
  | Fin x, Fin y => Rltb x y
  end.

Definition leb (a b : f64) : bool :=
  match a, b with
  | NaN, _ | _, NaN => false
  | NInf, _ => true
  | _, PInf => true
  | _, NInf => false
  | PInf, _ => false
  | Fin x, Fin y => Rleb x y
  end.

(** Whether a real is an integer, and an odd one. *)
Definition is_int (y : R) : bool := Reqb (IZR (Int_part y)) y.
Definition is_odd_int (y : R) : bool := is_int y && Z.odd (Int_part y).

(** [numpy.power] on scalars (C99 [pow]). *)
Definition power (a b : f64) : f64 :=
  match b with
  | Fin y =>
      if Reqb y 0 then Fin 1 else
      match a with
      | Fin x =>
          if Rltb 0 x then Fin (Rpower x y)
          else if Reqb x 0 then (if Rltb 0 y then Fin 0 else PInf)
          else if is_int y
               then Fin (if is_odd_int y then - Rpower (- x) y
                         else Rpower (- x) y)
               else NaN
      | PInf => if Rltb 0 y then PInf else Fin 0
      | NInf => if Rltb 0 y
                then (if is_odd_int y then NInf else PInf)
                else Fin 0
      | NaN => NaN
      end
  | PInf =>
      match a with
      | Fin x => if Rltb (Rabs x) 1 then Fin 0
                 else if Reqb (Rabs x) 1 then Fin 1 else PInf
      | PInf | NInf => PInf
      | NaN => NaN
      end
  | NInf =>
      match a with
      | Fin x => if Rltb (Rabs x) 1 then PInf
                 else if Reqb (Rabs x) 1 then Fin 1 else Fin 0
      | PInf | NInf => Fin 0
      | NaN => NaN
      end
  | NaN =>
      match a with
      | Fin x => if Reqb x 1 then Fin 1 else NaN
      | _ => NaN
      end
  end.

(** The largest finite binary64 value, [(2 - 2^-52) * 2^1023]. *)
Definition max_float : R := (2 - / 2 ^ 52) * 2 ^ 1023.

(** [numpy.nan_to_num]: [NaN] becomes zero and the infinities the
    largest finite values. *)
Definition nan_to_num (v : f64) : f64 :=
  match v with
  | NaN => Fin 0
  | PInf => Fin max_float
  | NInf => Fin (- max_float)
  | Fin x => Fin x
  end.

(** [Series.fillna(v)] on one entry: only [NaN] is replaced. *)
Definition fillna (v : f64) (a : f64) : f64 :=
  match a with NaN => v | _ => a end.

(** [numpy.sum] *)
Definition sum (xs : list f64) : f64 := fold_right add (Fin 0) xs.

Definition dropna (xs : list f64) : list f64 := filter notnan xs.

Definition count (xs : list f64) : f64 := Fin (INR (length xs)).

(** [numpy.ndarray.mean]: [NaN] entries propagate; the mean of no
    entry is [0/0 = NaN]. *)
Definition mean (xs : list f64) : f64 := div (sum xs) (count xs).

(** Sample standard deviation with [ddof=1]; [NaN] with fewer than two
    entries. *)
Definition std1 (xs : list f64) : f64 :=
  if (length xs <=? 1)%nat then NaN
  else
    let m := mean xs in
    let sq := map (fun x => mul (sub x m) (sub x m)) xs in
    sqrt (div (sum sq) (Fin (INR (length xs) - 1))).

(** Mean over the entries that are not [NaN]: [numpy.nanmean] and the
    pandas [mean] (which skips missing values by default). *)
Definition nanmean (xs : list f64) : f64 := mean (dropna xs).

(** [numpy.nanstd(..., ddof=1)] and pandas [std(ddof=1)]. *)
Definition nanstd1 (xs : list f64) : f64 := std1 (dropna xs).

(** [numpy.minimum]: the smaller value, [NaN] if either is. *)
Definition minimum (a b : f64) : f64 :=
  match a, b with
  | NaN, _ | _, NaN => NaN
  | NInf, _ | _, NInf => NInf
  | PInf, v | v, PInf => v
  | Fin x, Fin y => Fin (Rmin x y)
  end.

(** The smallest and the largest entry of a non-empty list. *)
Definition min_of (x : f64) (xs : list f64) : f64 := fold_left minimum xs x.
Definition max_of (x : f64) (xs : list f64) : f64 := fold_left maximum xs x.

(** The smallest positive binary64 value is [2^-1074]; [tiny] is half
    of it.  [min_normal], [2^-1022], is the smallest positive value
    held at full precision. *)
Definition tiny : R := / 2 ^ 1075.
Definition min_normal : R := / 2 ^ 1022.

(** Underflow.  A result whose magnitude is [tiny] or less has zero as
    its nearest binary64 value (at [tiny] itself the tie goes to the
    even neighbour, zero): the operation returns zero.  Larger results
    are kept as they are. *)
Definition underflow (v : f64) : f64 :=
  match v with
  | Fin z => if Rleb (Rabs z) tiny then Fin 0 else Fin z
  | _ => v
  end.

End F64.

(** ** The Python side: exceptions, tracebacks, scalars, indexing *)

Module Py.

Import F64.

Inductive exn : Type :=
| AssertionError
| ZeroDivisionError
| IndexError
| AttributeError
| ValueError
| NameError.

(** Outcome of a call: a value, or an exception with its traceback
    (outermost frame first). *)
Inductive result (A : Type) : Type :=
| Return (a : A)
| Raise (e : exn) (tb : list string).

Arguments Return {A} a.
Arguments Raise {A} e tb.

Definition bind {A B} (m : result A) (k : A -> result B) : result B :=
  match m with
  | Return a => k a
  | Raise e tb => Raise e tb
  end.

(** A function body running in its own frame: an exception leaving it
    gets the frame's name in front of its traceback. *)
Definition frame {A} (name : string) (body : result A) : result A :=
  match body with
  | Return a => Return a
  | Raise e tb => Raise e (name :: tb)
  end.

Definition raises {A} (r : result A) : bool :=
  match r with Return _ => false | Raise _ _ => true end.

Fixpoint mapM {A B} (f : A -> result B) (xs : list A) : result (list B) :=
  match xs with
  | [] => Return []
  | x :: xs' =>
      bind (f x) (fun y => bind (mapM f xs') (fun ys => Return (y :: ys)))
  end.

(** A scalar argument is a Python number ([int], [float]) or a numpy
    scalar; both carry a binary64 value. *)
Inductive number : Type :=
| PyNum (v : f64)
| NpNum (v : f64).

Definition value (n : number) : f64 :=
  match n with PyNum v | NpNum v => v end.

Definition is_zero (v : f64) : bool :=
  match v with Fin x => Reqb x 0 | _ => false end.

(** The operator [/].  Between two Python numbers a zero divisor
    raises [ZeroDivisionError]; as soon as one operand is a numpy
    scalar the division is numpy's and returns inf or nan. *)
Definition truediv (a b : number) : result number :=
  match a, b with
  | PyNum x, PyNum y =>
      if is_zero y then Raise ZeroDivisionError []
      else Return (PyNum (div x y))
  | _, _ => Return (NpNum (div (value a) (value b)))
  end.

(** [range(n)] *)
Definition range (n : Z) : list Z := map Z.of_nat (seq 0 (Z.to_nat n)).

(** [xs[i]], negative indices counting from the end. *)
Definition getitem (xs : list f64) (i : Z) : result f64 :=
  let n := Z.of_nat (length xs) in
  let j := if (i <? 0)%Z then (i + n)%Z else i in
  if ((0 <=? j) && (j <? n))%Z
  then match nth_error xs (Z.to_nat j) with
       | Some v => Return v
       | None => Raise IndexError []
       end
  else Raise IndexError [].

End Py.

Notation "x <- m ;; k" := (Py.bind m (fun x => k))
  (at level 61, m at next level, right associativity).
Notation "m ;;; k" := (Py.bind m (fun _ => k))
  (at level 61, right associativity).

(** ** numpy arrays, pandas Series and DataFrames *)

Module Data.

Import F64.

(** A column label: a position (the default labels of
    [pandas.DataFrame(array)]) or a name. *)
Inductive label : Type :=
| IntLabel (i : Z)
| StrLabel (s : string).

(** The inputs the source tells apart with [isinstance].  A Series'
    own index plays no part in any computation and is left out. *)
Inductive container : Type :=
| NdArray (xs : list f64)
| PdSeries (xs : list f64)
| PdDataFrame (cols : list (label * list f64)).

(** What a reduction or a ratio returns: a scalar, or a pandas Series
    keyed by the column labels of the DataFrame it came from. *)
Inductive reduced : Type :=
| Scalar (v : f64)
| Labeled (vs : list (label * f64)).

Definition is_scalar (r : reduced) : bool :=
  match r with Scalar _ => true | Labeled _ => false end.

(** [isinstance(c, pd.DataFrame) or isinstance(c, pd.Series)] *)
Definition is_pandas (c : container) : bool :=
  match c with NdArray _ => false | _ => true end.

Definition is_dataframe (c : container) : bool :=
  match c with PdDataFrame _ => true | _ => false end.

(** Elementwise application, which keeps the kind of container. *)
Definition cmap (f : f64 -> f64) (c : container) : container :=
  match c with
  | NdArray xs => NdArray (map f xs)
  | PdSeries xs => PdSeries (map f xs)
  | PdDataFrame cols =>
      PdDataFrame (map (fun lc => (fst lc, map f (snd lc))) cols)
  end.

(** A reduction along the time axis: a scalar for a one-dimensional
    input, one value per column for a DataFrame. *)
Definition reduce (f : list f64 -> f64) (c : container) : reduced :=
  match c with
  | NdArray xs => Scalar (f xs)
  | PdSeries xs => Scalar (f xs)
  | PdDataFrame cols => Labeled (map (fun lc => (fst lc, f (snd lc))) cols)
  end.

(** A column-by-column transformation of the values. *)
Definition per_column (f : list f64 -> list f64) (c : container) : container :=
  match c with
  | NdArray xs => NdArray (f xs)
  | PdSeries xs => PdSeries (f xs)
  | PdDataFrame cols => PdDataFrame (map (fun lc => (fst lc, f (snd lc))) cols)
  end.

Definition rmap (f : f64 -> f64) (r : reduced) : reduced :=
  match r with
  | Scalar v => Scalar (f v)
  | Labeled vs => Labeled (map (fun lv => (fst lv, f (snd lv))) vs)
  end.

Fixpoint zip_labeled (f : f64 -> f64 -> f64) (xs ys : list (label * f64))
  : list (label * f64) :=
  match xs, ys with
  | (l, x) :: xs', (_, y) :: ys' => (l, f x y) :: zip_labeled f xs' ys'
  | _, _ => []
  end.

(** A binary operator between two results.  A scalar broadcasts; two
    labeled results come from the same DataFrame and so carry the same
    labels in the same order. *)
Definition rlift2 (f : f64 -> f64 -> f64) (a b : reduced) : reduced :=
  match a, b with
  | Scalar x, Scalar y => Scalar (f x y)
  | Scalar x, Labeled ys => Labeled (map (fun lv => (fst lv, f x (snd lv))) ys)
  | Labeled xs, Scalar y => Labeled (map (fun lv => (fst lv, f (snd lv) y)) xs)
  | Labeled xs, Labeled ys => Labeled (zip_labeled f xs ys)
  end.

Fixpoint zip_values (f : f64 -> f64 -> f64) (xs ys : list f64) : list f64 :=
  match xs, ys with
  | x :: xs', y :: ys' => f x y :: zip_values f xs' ys'
  | _, _ => []
  end.

Fixpoint zip_columns (f : f64 -> f64 -> f64)
  (xs ys : list (label * list f64)) : list (label * list f64) :=
  match xs, ys with
  | (l, x) :: xs', (_, y) :: ys' =>
      (l, zip_values f x y) :: zip_columns f xs' ys'
  | _, _ => []
  end.

(** An elementwise binary operator between two containers of the same
    kind and shape. *)
Definition clift2 (f : f64 -> f64 -> f64) (a b : container) : container :=
  match a, b with
  | NdArray xs, NdArray ys => NdArray (zip_values f xs ys)
  | PdSeries xs, PdSeries ys => PdSeries (zip_values f xs ys)
  | PdDataFrame xs, PdDataFrame ys => PdDataFrame (zip_columns f xs ys)
  | _, _ => a
  end.

(** [pd.DataFrame(array)] of a one-dimensional array: one column,
    labeled [0]. *)
Definition to_frame (xs : list f64) : container :=
  PdDataFrame [(IntLabel 0, xs)].

(** pandas [mean()], [std(ddof=1)] and numpy [nanmean], [nanstd]. *)
Definition pd_mean : container -> reduced := reduce nanmean.
Definition pd_std : container -> reduced := reduce nanstd1.
Definition np_nanmean : container -> reduced := reduce nanmean.
Definition np_nanstd : container -> reduced := reduce nanstd1.

(** One window of [rolling(window=w)] ending at position [i]: [NaN]
    until [w] observations are available, and whenever the window
    holds a missing value. *)
Definition window_at (w : nat) (f : list f64 -> f64) (xs : list f64) (i : nat)
  : f64 :=
  if (S i <? w)%nat then NaN
  else
    let win := firstn w (skipn (S i - w) xs) in
    if forallb notnan win then f win else NaN.

Definition rolling (w : nat) (f : list f64 -> f64) (xs : list f64) : list f64 :=
  map (window_at w f xs) (seq 0 (length xs)).

(** [Series.shift(n)]: the values moved [n] places towards the end
    ([n >= 0]) or towards the start ([n < 0]); the places left free
    are missing. *)
Definition shift (n : Z) (xs : list f64) : list f64 :=
  let len := length xs in
  if (0 <=? n)%Z
  then repeat NaN (Nat.min (Z.to_nat n) len) ++ firstn (len - Z.to_nat n) xs
  else skipn (Z.to_nat (- n)) xs ++ repeat NaN (Nat.min (Z.to_nat (- n)) len).

(** What a scipy reduction along [axis=0] hands back: a numpy scalar
    for a one-dimensional input, a plain array with one value per
    column (the labels are gone) for a DataFrame. *)
Inductive np_value : Type :=
| NpScalar (v : f64)
| NpArray (vs : list f64).

Definition np_reduce (f : list f64 -> f64) (c : container) : np_value :=
  match c with
  | NdArray xs => NpScalar (f xs)
  | PdSeries xs => NpScalar (f xs)
  | PdDataFrame cols => NpArray (map (fun lc => f (snd lc)) cols)
  end.

Definition np_map (f : f64 -> f64) (v : np_value) : np_value :=
  match v with
  | NpScalar x => NpScalar (f x)
  | NpArray xs => NpArray (map f xs)
  end.

End Data.

Abbreviation f64 := F64.f64.
Abbreviation Fin := F64.Fin.
Abbreviation PInf := F64.PInf.
Abbreviation NInf := F64.NInf.
Abbreviation NaN := F64.NaN.

(** ** The routines of scipy and statsmodels the module calls *)

Module Extern.

(** [statsmodels.tsa.stattools.acf(x, unbiased=False, nlags=q)]: the
    sample autocovariance at lags [0 .. nlags] (deviations from the
    sample mean, each sum divided by the number of observations),
    divided by the lag-0 value. *)
Definition lagged_products (ds : list f64) (k : nat) : list f64 :=
  Data.zip_values F64.mul ds (skipn k ds).

Definition acovf (xs : list f64) (k : nat) : f64 :=
  let m := F64.div (F64.sum xs) (F64.count xs) in
  let ds := map (fun x => F64.sub x m) xs in
  F64.div (F64.sum (lagged_products ds k)) (F64.count xs).

Definition acf_biased (xs : list f64) (nlags : Z) : list f64 :=
  map (fun k => F64.div (acovf xs k) (acovf xs 0))
      (seq 0 (Nat.min (Z.to_nat (nlags + 1)) (length xs))).

(** [scipy.stats.gmean]: the exponential of the mean of the
    logarithms. *)
Definition gmean (xs : list f64) : f64 :=
  F64.exp (F64.mean (map F64.log xs)).

(** What the program takes from the statistics libraries without
    this development looking inside: the p-values of the Ljung-Box
    test that [acf(..., qstat=True)] reports for lags [1 .. nlags],
    the bias-corrected sample skewness and excess kurtosis of pandas
    and of scipy, and the normal distribution function
    [scipy.stats.norm.cdf(x, loc, scale)]. *)
Record stats : Type := {
  ljungbox_pvalues : list f64 -> Z -> list f64;
  pd_skew : list f64 -> f64;
  pd_kurtosis : list f64 -> f64;
  ss_skew : list f64 -> f64;
  ss_kurtosis : list f64 -> f64;
  ss_norm_cdf : f64 -> f64 -> f64 -> f64
}.

End Extern.

(** ** pypbo/perf/metrics.py *)

Module Metrics.

Import Py Data Extern.

Open Scope string_scope.

(** default no. of trading days in a year, 255. *)
Definition trading_days : Z := 255.

Definition pct_to_log_return (pct_returns : container) : container :=
  if is_pandas pct_returns
  then cmap F64.log
         (cmap (F64.add (Fin 1)) (cmap (F64.fillna (Fin 0)) pct_returns))
  else cmap F64.log
         (cmap (F64.add (Fin 1)) (cmap F64.nan_to_num pct_returns)).

Definition log_to_pct_return (log_returns : container) : container :=
  cmap (fun x => F64.sub (F64.exp x) (Fin 1)) log_returns.

Definition valid_return_type (return_type : string) : bool :=
  (return_type =? "pct") || (return_type =? "log").

Definition validate_return_type (return_type : string) : result unit :=
  frame "validate_return_type"
    (if negb (valid_return_type return_type)
     then Raise AssertionError []
     else Return tt).

Definition maxzero (x : f64) : f64 := F64.maximum x (Fin 0).

(** [numpy.ndarray.clip(x, min=lo)] on one entry. *)
Definition clip_min (lo : f64) (x : f64) : f64 := F64.maximum x lo.

Definition LPM (returns : container) (target_rtn : f64) (moment : Z)
  : reduced :=
  if is_pandas returns then
    let adj_returns := cmap maxzero (cmap (F64.sub target_rtn) returns) in
    pd_mean (cmap (fun a => F64.power a (Fin (IZR moment))) adj_returns)
  else
    let adj_returns :=
      cmap (clip_min (Fin 0)) (cmap (F64.sub target_rtn) returns) in
    np_nanmean (cmap (fun a => F64.power a (Fin (IZR moment))) adj_returns).

(** [LPM] once more, with room for what binary64 does to small
    results.  Two operations of [LPM] can return less than binary64
    holds: [np.power] on each entry and the division inside the mean.
    [rnd] is applied to what they return.  The subtraction, the
    maximum and the sum of entries that are zero or more cannot turn a
    non-zero result into zero and stay exact.  With the identity for
    [rnd] this is [LPM]. *)
Definition LPM_rounded (rnd : f64 -> f64)
  (returns : container) (target_rtn : f64) (moment : Z) : reduced :=
  if is_pandas returns then
    let adj_returns := cmap maxzero (cmap (F64.sub target_rtn) returns) in
    reduce (fun xs => rnd (F64.nanmean xs))
      (cmap (fun a => rnd (F64.power a (Fin (IZR moment)))) adj_returns)
  else
    let adj_returns :=
      cmap (clip_min (Fin 0)) (cmap (F64.sub target_rtn) returns) in
    reduce (fun xs => rnd (F64.nanmean xs))
      (cmap (fun a => rnd (F64.power a (Fin (IZR moment)))) adj_returns).

(** [LPM] as the program computes it, underflow included. *)
Definition LPM_binary64 : container -> f64 -> Z -> reduced :=
  LPM_rounded F64.underflow.

(** [returns - target_rtn] *)
Definition minus (c : container) (t : f64) : container :=
  cmap (fun r => F64.sub r t) c.

Definition kappa (returns : container) (target_rtn : f64) (moment : Z)
  (return_type : string) : result reduced :=
  frame "kappa"
    (validate_return_type return_type ;;;
     let excess :=
       if return_type =? "pct"
       then pct_to_log_return (minus returns target_rtn)
       else minus returns target_rtn in
     let mean :=
       if is_pandas excess then pd_mean excess else np_nanmean excess in
     let lpm := LPM returns target_rtn moment in
     root <- truediv (PyNum (Fin 1)) (PyNum (Fin (IZR moment))) ;;
     Return (rlift2 F64.div mean
               (rmap (fun l => F64.power l (value root)) lpm))).

Definition kappa3 (returns : container) (target_rtn : f64)
  (return_type : string) : result reduced :=
  frame "kappa3" (kappa returns target_rtn 3 return_type).

Definition omega (returns : container) (target_rtn : f64)
  (return_type : string) : result reduced :=
  frame "omega"
    (k <- kappa returns target_rtn 1 return_type ;;
     Return (rmap (F64.add (Fin 1)) k)).

Definition sortino (returns : container) (target_rtn factor : f64)
  (return_type : string) : result reduced :=
  frame "sortino"
    (validate_return_type return_type ;;;
     let returns :=
       if return_type =? "pct" then pct_to_log_return returns else returns in
     if is_pandas returns then
       Return
         (rmap (fun v => F64.mul v factor)
            (rlift2 F64.div
               (rmap (fun m => F64.sub m target_rtn) (pd_mean returns))
               (rmap F64.sqrt (LPM returns target_rtn 2))))
     else
       Return
         (rmap (fun v => F64.mul v factor)
            (rlift2 F64.div
               (np_nanmean (minus returns target_rtn))
               (rmap F64.sqrt (LPM returns target_rtn 2))))).

(** [excess.where(cond=lambda x: x < 0)] followed by [fillna(0)] *)
Definition where_negative (x : f64) : f64 :=
  if F64.ltb x (Fin 0) then x else NaN.

Definition sortino_iid (df : container) (bench factor : f64)
  (return_type : string) : result reduced :=
  frame "sortino_iid"
    (validate_return_type return_type ;;;
     let df := match df with NdArray xs => to_frame xs | _ => df end in
     let excess :=
       if return_type =? "pct"
       then pct_to_log_return (minus df bench)
       else minus df bench in
     let neg_rtns := cmap where_negative excess in
     let neg_rtns := cmap (F64.fillna (Fin 0)) neg_rtns in
     let semi_std :=
       rmap F64.sqrt
         (pd_mean (cmap (fun x => F64.power x (Fin 2)) neg_rtns)) in
     Return (rlift2 F64.div (rmap (F64.mul factor) (pd_mean excess))
               semi_std)).

Definition sharpe_iid (df : container) (bench factor : f64)
  (return_type : string) : result reduced :=
  frame "sharpe_iid"
    (validate_return_type return_type ;;;
     let excess := minus df bench in
     let excess :=
       if return_type =? "pct" then pct_to_log_return excess else excess in
     if is_pandas df then
       let excess_mean := pd_mean excess in
       Return (rlift2 F64.div (rmap (F64.mul factor) excess_mean)
                 (pd_std excess))
     else
       let excess_mean := np_nanmean excess in
       Return (rlift2 F64.div (rmap (F64.mul factor) excess_mean)
                 (np_nanstd excess))).

(** [excess.rolling(window=window)]: numpy arrays have no such
    method. *)
Definition rolling_of (excess : container) : result container :=
  match excess with
  | NdArray _ => Raise AttributeError []
  | _ => Return excess
  end.

Definition sharpe_iid_rolling (df : container) (window : nat)
  (bench factor : f64) (return_type : string) : result container :=
  frame "sharpe_iid_rolling"
    (validate_return_type return_type ;;;
     let excess :=
       if return_type =? "pct"
       then pct_to_log_return (minus df bench)
       else minus df bench in
     roll <- rolling_of excess ;;
     let roll_mean := per_column (rolling window F64.nanmean) roll in
     let roll_std := per_column (rolling window F64.nanstd1) roll in
     Return (clift2 F64.div (cmap (F64.mul factor) roll_mean) roll_std)).

Definition adjusted_sharpe (sr skew excess_kurtosis : reduced) : reduced :=
  rlift2 F64.mul sr
    (rlift2 F64.add
       (rlift2 F64.add (Scalar (Fin 1))
          (rlift2 F64.mul (rmap (fun s => F64.div s (Fin 6)) skew) sr))
       (rlift2 F64.mul
          (rmap (fun k => F64.div k (Fin 24)) excess_kurtosis)
          (rmap (fun s => F64.power s (Fin 2)) sr))).

Definition annualized_pct_return (total_return days ann_factor : number)
  : result number :=
  frame "annualized_pct_return"
    (years <- truediv days ann_factor ;;
     inv <- truediv (PyNum (Fin 1)) years ;;
     let ann :=
       F64.sub (F64.power (value total_return) (value inv)) (Fin 1) in
     Return (NpNum ann)).

Definition annualized_log_return (total_return days ann_factor : number)
  : result number :=
  frame "annualized_log_return"
    (years <- truediv days ann_factor ;;
     ann <- truediv total_return years ;;
     Return ann).

(** Calculates geometric average returns from a given returns series. *)
Definition returns_gmean (returns : container) : np_value :=
  let returns :=
    if is_pandas returns then cmap (F64.fillna (Fin 0)) returns
    else cmap F64.nan_to_num returns in
  np_map (fun g => F64.sub g (Fin 1))
    (np_reduce gmean (cmap (F64.add (Fin 1)) returns)).

(** [prices.shift(n)] is a pandas method; numpy arrays have none. *)
Definition log_returns (prices : container) (n : Z) : result container :=
  frame "log_returns"
    (match prices with
     | NdArray _ => Raise AttributeError []
     | _ =>
         Return
           (cmap (F64.fillna (Fin 0))
              (cmap F64.log
                 (clift2 F64.div prices (per_column (shift n) prices))))
     end).

Definition validate_mean_method (method : string) : result unit :=
  frame "validate_mean_method"
    (if negb ((method =? "gmean") || (method =? "simple"))
     then Raise AssertionError []
     else Return tt).

(** [np.round(q, 0)]: to the nearest integer, halves to the even
    one. *)
Definition round_half_even (x : R) : Z :=
  let f := Int_part x in
  let r := x - IZR f in
  if F64.Rltb r (1 / 2) then f
  else if F64.Rltb (1 / 2) r then (f + 1)%Z
  else if Z.even f then f else (f + 1)%Z.

(** [.astype(np.int64)]: a 64-bit signed integer.  A value that does
    not fit comes out as the smallest one, which is what the
    conversion of a double yields on x86-64. *)
Definition int64_min : Z := (- 2 ^ 63)%Z.
Definition int64_max : Z := (2 ^ 63 - 1)%Z.

Definition astype_int64 (z : Z) : Z :=
  if ((int64_min <=? z) && (z <=? int64_max))%Z then z else int64_min.

(** The horizon [sharpe_non_iid] works with: the argument [q], or the
    default of the signature when the caller gives none, coerced to an
    integer by [np.round(q, 0).astype(np.int64)]. *)
Definition horizon (q : option R) : Z :=
  astype_int64
    (round_half_even
       (match q with Some q => q | None => IZR trading_days end)).

(** [statsmodels.tools.tools.ECDF(returns)]: the empirical
    distribution function of a one-dimensional sample.  The
    constructor divides by the number of observations ([1./nobs]) and
    rejects anything that is not one-dimensional. *)
Definition ecdf_of (sample : list f64) (x : f64) : f64 :=
  F64.div (F64.count (filter (fun s => F64.leb s x) sample))
          (F64.count sample).

Definition ECDF (returns : container) : result (f64 -> f64) :=
  match returns with
  | PdDataFrame _ => Raise ValueError ["ECDF"]
  | NdArray xs | PdSeries xs =>
      match xs with
      | [] => Raise ZeroDivisionError ["ECDF"]
      | _ => Return (ecdf_of xs)
      end
  end.

(** The methods [returns.min()], [returns.max()], [returns.mean()] and
    [returns.std(ddof=1)]: numpy's propagate [NaN] (and [min], [max]
    refuse an empty array), pandas' skip it. *)
Definition method_min (returns : container) : result reduced :=
  match returns with
  | NdArray [] => Raise ValueError ["min"]
  | NdArray (x :: xs) => Return (Scalar (F64.min_of x xs))
  | _ =>
      Return (reduce (fun xs => match F64.dropna xs with
                                | [] => NaN
                                | y :: ys => F64.min_of y ys
                                end) returns)
  end.

Definition method_max (returns : container) : result reduced :=
  match returns with
  | NdArray [] => Raise ValueError ["max"]
  | NdArray (x :: xs) => Return (Scalar (F64.max_of x xs))
  | _ =>
      Return (reduce (fun xs => match F64.dropna xs with
                                | [] => NaN
                                | y :: ys => F64.max_of y ys
                                end) returns)
  end.

Definition method_mean (returns : container) : reduced :=
  if is_pandas returns then pd_mean returns else reduce F64.mean returns.

Definition method_std (returns : container) : reduced :=
  if is_pandas returns then pd_std returns else reduce F64.std1 returns.

(** [np.linspace(start, stop, num)] between two scalars.  (Endpoints
    that are arrays are not modelled; [omega_empirical] cannot reach
    them, [ECDF] having rejected a DataFrame before.) *)
Definition linspace (start stop : reduced) (num : Z) : result (list f64) :=
  match start, stop with
  | Scalar a, Scalar b =>
      if (num <? 0)%Z then Raise ValueError ["linspace"]
      else if (num =? 1)%Z then Return [a]
      else
        let step := F64.div (F64.sub b a) (Fin (IZR (num - 1))) in
        Return (map (fun i => F64.add a (F64.mul (Fin (IZR i)) step))
                    (range num))
  | _, _ => Raise ValueError ["linspace"]
  end.

Section WithStats.

Variable lib : stats.

(** [sts.acf(returns, unbiased=False, nlags=q, qstat=True)], without
    the Q statistics the caller drops. *)
Definition sts_acf (returns : list f64) (q : Z) : list f64 * list f64 :=
  (acf_biased returns q, ljungbox_pvalues lib returns q).

Definition sharpe_autocorr_factor (returns : list f64) (q : Z)
  : result (f64 * f64) :=
  frame "sharpe_autocorr_factor"
    (let (acf, pval) := sts_acf returns q in
     term <- mapM (fun k => a <- getitem acf (k + 1) ;;
                            Return (F64.mul (Fin (IZR (q - (k + 1)))) a))
                  (range (q - 2)) ;;
     let factor :=
       F64.div (Fin (IZR q))
         (F64.sqrt (F64.add (Fin (IZR q))
                      (F64.mul (Fin 2) (F64.sum term)))) in
     p <- getitem pval (-2) ;;
     Return (factor, p)).

Definition sharpe_non_iid (df : container) (bench : f64) (q : option R)
  (p_critical : f64) (return_type : string) : result reduced :=
  frame "sharpe_non_iid"
    (let q := horizon q in
     sr <- sharpe_iid df bench (Fin 1) return_type ;;
     match df with
     | PdDataFrame cols =>
         tests <- mapM (fun lc =>
                          sharpe_autocorr_factor (F64.dropna (snd lc)) q)
                       cols ;;
         let factors :=
           map (fun t => if F64.ltb (snd t) p_critical
                         then fst t else F64.sqrt (Fin (IZR q))) tests in
         let res := Labeled (combine (map fst cols) factors) in
         Return (rlift2 F64.mul res sr)
     | NdArray xs | PdSeries xs =>
         t <- sharpe_autocorr_factor xs q ;;
         let (adj_factor, pval) := t in
         if F64.ltb pval p_critical
         then Return (rlift2 F64.mul sr (Scalar adj_factor))
         else Return (rlift2 F64.mul sr (Scalar (F64.sqrt (Fin (IZR q)))))
     end).

Definition sharpe_iid_adjusted (df : container) (bench factor : f64)
  (return_type : string) : result reduced :=
  frame "sharpe_iid_adjusted"
    (sr <- sharpe_iid df bench (Fin 1) return_type ;;
     let skew :=
       if is_pandas df then reduce (pd_skew lib) df
       else reduce (ss_skew lib) df in
     let excess_kurt :=
       if is_pandas df then reduce (pd_kurtosis lib) df
       else reduce (ss_kurtosis lib) df in
     Return (rmap (fun v => F64.mul v factor)
               (adjusted_sharpe sr skew excess_kurt))).

(** The function has no [return] statement: what it hands back is
    Python's [None], here the [None] of [option].  With [plot] set it
    reaches [plt], a name the module never binds. *)
Definition omega_empirical (returns : container) (target_rtn : f64)
  (return_type : string) (plot : bool) (steps : Z)
  : result (option reduced) :=
  frame "omega_empirical"
    (validate_return_type return_type ;;;
     let returns :=
       if return_type =? "pct" then pct_to_log_return returns else returns in
     ecdf <- ECDF returns ;;
     lo <- method_min returns ;;
     hi <- method_max returns ;;
     x <- linspace lo hi steps ;;
     let y := map ecdf x in
     let norm_cdf :=
       match method_mean returns, method_std returns with
       | Scalar loc, Scalar scale =>
           map (fun xi => ss_norm_cdf lib xi loc scale) x
       | _, _ => []
       end in
     if plot then Raise NameError [] else Return None).

End WithStats.

End Metrics.

(** * Properties *)

Import Py Data Extern Metrics.

Open Scope string_scope.

(** ** Vocabulary of the properties and data of the examples *)

(** What it would mean for the public function [name] to check the
    return type in its own body: the [AssertionError] leaves
    [validate_return_type] called directly from the frame of [name]. *)
Definition validates_at_entry {A} (name : string) (r : result A) : Prop :=
  r = Raise AssertionError [name; "validate_return_type"].

(** A statistics library for the examples: one constant p-value per
    lag, constant moments. *)
Definition plain_stats : stats :=
  {| ljungbox_pvalues := fun _ q => repeat (Fin 1) (Z.to_nat q);
     pd_skew := fun _ => Fin 0;
     pd_kurtosis := fun _ => Fin 0;
     ss_skew := fun _ => Fin 0;
     ss_kurtosis := fun _ => Fin 0;
     ss_norm_cdf := fun _ _ _ => Fin 0 |}.

Definition is_series (c : container) : bool :=
  match c with PdSeries _ => true | _ => false end.

(** The values of a one-dimensional input. *)
Definition values (c : container) : list f64 :=
  match c with
  | NdArray xs | PdSeries xs => xs
  | PdDataFrame _ => []
  end.

(** The data of the repository's [test_sortino_iid]. *)
Definition sortino_test_data : list f64 :=
  [Fin (17 / 100); Fin (15 / 100); Fin (23 / 100); Fin (- 5 / 100);
   Fin (12 / 100); Fin (9 / 100); Fin (13 / 100); Fin (- 4 / 100)].

(** An admissible percentage return: present, finite, above a total
    loss. *)
Definition admissible_pct (v : f64) : Prop :=
  exists x, v = Fin x /\ 0 < 1 + x.

(** A property of every entry of a container. *)
Definition every_entry (P : f64 -> Prop) (c : container) : Prop :=
  match c with
  | NdArray xs | PdSeries xs => Forall P xs
  | PdDataFrame cols => Forall (fun lc => Forall P (snd lc)) cols
  end.

(** What [LPM] does to one observation, in both of its branches. *)
Definition lpm_entry (t : R) (n : Z) (a : f64) : f64 :=
  F64.power (F64.maximum (F64.sub (Fin t) a) (Fin 0)) (Fin (IZR n)).

(** A value that is zero or more, possibly infinite. *)
Definition nonneg (v : f64) : Prop :=
  v = PInf \/ exists y, v = Fin y /\ 0 <= y.

(** The guarantee of the specification for one series: the moment is
    zero or more, and zero exactly when no observation is below the
    target. *)
Definition lpm_guarantee (t : R) (xs : list f64) (v : f64) : Prop :=
  F64.leb (Fin 0) v = true
  /\ (v = Fin 0 <-> forall a, In a xs -> F64.ltb a (Fin t) = false).

(** A series with at least one observation that is not missing. *)
Definition has_observation (xs : list f64) : Prop :=
  existsb F64.notnan xs = true.

(** What [LPM_binary64] does to one observation. *)
Definition lpm_entry_binary64 (t : R) (n : Z) (a : f64) : f64 :=
  F64.underflow (lpm_entry t n a).

(** An observation of the series [xs] whose shortfall cannot be lost:
    it is [-inf], or it is below the target and the [n]-th power of
    its shortfall is at least the smallest normal number times the
    number of observations that are not missing. *)
Definition clear_shortfall (t : R) (n : Z) (xs : list f64) (a : f64) : Prop :=
  a = NInf
  \/ exists x, a = Fin x /\ x < t
               /\ INR (length (F64.dropna xs)) * F64.min_normal
                  <= Rpower (t - x) (IZR n).

(** What holds of the moment of one series in binary64: it is zero or
    more; it is zero when no observation is below the target; it is
    not zero when an observation has a clear shortfall.  The last part
    is stated for orders up to 1000, where the rounding of the
    shortfall itself, which this file does not follow, is far from
    the margin between [F64.min_normal] and [F64.tiny]. *)
Definition lpm_binary64_guarantee (t : R) (n : Z) (xs : list f64) (v : f64)
  : Prop :=
  F64.leb (Fin 0) v = true
  /\ ((forall a, In a xs -> F64.ltb a (Fin t) = false) -> v = Fin 0)
  /\ ((n <= 1000)%Z ->
      (exists a, In a xs /\ clear_shortfall t n xs a) -> v <> Fin 0).

(** The series on which the moment underflows: one observation a
    little below the target zero, one above. *)
Definition underflow_data : list f64 := [Fin (- / 10 ^ 200); Fin 1].

(** A property of every column of a container. *)
Definition every_column (P : list f64 -> Prop) (c : container) : Prop :=
  match c with
  | NdArray xs | PdSeries xs => P xs
  | PdDataFrame cols => Forall (fun lc => P (snd lc)) cols
  end.

(** The factor as the specification writes it: the weighted sum runs
    over [k = 0 .. q-2], lags [1 .. q-1]. *)
Definition lo_factor_spec (acf : list f64) (q : Z) : result f64 :=
  term <- mapM (fun k => a <- getitem acf (k + 1) ;;
                         Return (F64.mul (Fin (IZR (q - (k + 1)))) a))
               (range (q - 1)) ;;
  Return (F64.div (Fin (IZR q))
            (F64.sqrt (F64.add (Fin (IZR q))
                         (F64.mul (Fin 2) (F64.sum term))))).

(** Four observations with autocorrelations [1/4], [-1/2] and [-1/4]
    at lags 1, 2 and 3. *)
Definition autocorr_test_data : list f64 := [Fin 1; Fin 1; Fin (-1); Fin (-1)].

(** A series with gaps: three missing observations and one loss. *)
Definition gapped_series : container := PdSeries [NaN; NaN; NaN; Fin (-1)].

(** The tolerance of the specification, [1e-9]. *)
Definition tolerance : R := 1 / 1000000000.

(** Two percentage returns: a loss of one half and a flat period. *)
Definition pct_test_data : container := NdArray [Fin (- 1 / 2); Fin 0].

(** The data of the repository's [test_omega] and [test_sharpe_iid]. *)
Definition omega_test_data : list f64 :=
  [Fin (89 / 10000); Fin (12 / 10000); Fin (- 2 / 1000); Fin (1 / 100);
   Fin (- 2 / 10000); Fin (2 / 100); Fin (3 / 100); Fin (1 / 100);
   Fin (- 3 / 1000); Fin (1 / 100); Fin (102 / 10000); Fin (- 1 / 100)].

Definition sharpe_test_data : list f64 :=
  [Fin (259 / 1000); Fin (198 / 1000); Fin (364 / 1000); Fin (- 81 / 1000);
   Fin (57 / 1000); Fin (55 / 1000); Fin (188 / 1000); Fin (317 / 1000);
   Fin (24 / 100); Fin (184 / 1000); Fin (- 1 / 100); Fin (526 / 1000)].

(** A value that is present and finite. *)
Definition finite (v : f64) : Prop := exists x, v = Fin x.

(** A percentage return the log transform has an answer for: missing
    (it is filled with zero), [+inf], or finite and no worse than a
    total loss. *)
Definition fillable (v : f64) : Prop :=
  v = NaN \/ v = PInf \/ exists x, v = Fin x /\ 0 <= 1 + x.

(** The product of a list of reals. *)
Definition product (rs : list R) : R := fold_right Rmult 1 rs.

(** The log returns and the simple returns of a run of prices, each
    against the price before ([p] before the first). *)
Fixpoint ratios_ln (p : R) (ps : list R) : list R :=
  match ps with
  | [] => []
  | q :: qs => ln (q / p) :: ratios_ln q qs
  end.

Fixpoint pct_changes (p : R) (ps : list R) : list R :=
  match ps with
  | [] => []
  | q :: qs => (q / p - 1) :: pct_changes q qs
  end.

(** A percentage return that is missing, or finite and no worse than
    a total loss. *)
Definition loss_bounded (v : f64) : Prop :=
  v = NaN \/ exists x, v = Fin x /\ 0 <= 1 + x.

(** * Proofs *)

(** One step of a Python body: binds, frames and projections, and
    nothing of the arithmetic. *)
Ltac py_step :=
  cbn [Py.bind Py.frame Py.value Py.raises Py.mapM].

(** ** Deciding comparisons of reals *)

Arguments F64.Rltb : simpl never.
Arguments F64.Rleb : simpl never.
Arguments F64.Reqb : simpl never.

Lemma Rltb_true (x y : R) : x < y -> F64.Rltb x y = true.
Proof. intro H; unfold F64.Rltb; destruct (Rlt_dec x y); [reflexivity | lra]. Qed.

Lemma Rltb_false (x y : R) : y <= x -> F64.Rltb x y = false.
Proof. intro H; unfold F64.Rltb; destruct (Rlt_dec x y); [lra | reflexivity]. Qed.

Lemma Rleb_true (x y : R) : x <= y -> F64.Rleb x y = true.
Proof. intro H; unfold F64.Rleb; destruct (Rle_dec x y); [reflexivity | lra]. Qed.

Lemma Rleb_false (x y : R) : y < x -> F64.Rleb x y = false.
Proof. intro H; unfold F64.Rleb; destruct (Rle_dec x y); [lra | reflexivity]. Qed.

Lemma Reqb_true (x y : R) : x = y -> F64.Reqb x y = true.
Proof. intro H; unfold F64.Reqb; destruct (Req_dec_T x y); [reflexivity | lra]. Qed.

Lemma Reqb_false (x y : R) : x <> y -> F64.Reqb x y = false.
Proof.
  intro H; unfold F64.Reqb; destruct (Req_dec_T x y); [contradiction | reflexivity].
Qed.

Lemma Rltb_spec (x y : R) : F64.Rltb x y = true <-> x < y.
Proof.
  unfold F64.Rltb; destruct (Rlt_dec x y); split; intro; auto; discriminate.
Qed.

Lemma Int_part_IZR (z : Z) : Int_part (IZR z) = z.
Proof.
  unfold Int_part.
  assert (H : (z + 1)%Z = up (IZR z)).
  { apply tech_up; rewrite plus_IZR; lra. }
  rewrite <- H; lia.
Qed.

Lemma round_half_even_IZR (z : Z) : round_half_even (IZR z) = z.
Proof.
  unfold round_half_even; rewrite Int_part_IZR.
  rewrite Rltb_true by lra; reflexivity.
Qed.

(** ** The return-type check (C6) *)

Lemma validate_invalid (rt : string) :
  valid_return_type rt = false ->
  validate_return_type rt = Raise AssertionError ["validate_return_type"].
Proof. intro H; unfold validate_return_type; rewrite H; reflexivity. Qed.

Lemma validate_valid (rt : string) :
  valid_return_type rt = true -> validate_return_type rt = Return tt.
Proof. intro H; unfold validate_return_type; rewrite H; reflexivity. Qed.

Lemma sharpe_iid_invalid (df : container) (bench factor : f64) (rt : string) :
  valid_return_type rt = false ->
  sharpe_iid df bench factor rt
  = Raise AssertionError ["sharpe_iid"; "validate_return_type"].
Proof.
  intro H; unfold sharpe_iid; rewrite (validate_invalid rt H); reflexivity.
Qed.

Lemma kappa_invalid (returns : container) (t : f64) (m : Z) (rt : string) :
  valid_return_type rt = false ->
  kappa returns t m rt = Raise AssertionError ["kappa"; "validate_return_type"].
Proof.
  intro H; unfold kappa; rewrite (validate_invalid rt H); reflexivity.
Qed.

(** C6, as the code has it: with a return type other than ['pct'] and
    ['log'] each of the eight public ratio functions raises
    [AssertionError], whatever the data, and nothing is computed on the
    data before.  [kappa], [sortino], [sortino_iid], [sharpe_iid] and
    [sharpe_iid_rolling] make the check in their own body; [omega]
    reaches it only through its call of [kappa], and
    [sharpe_iid_adjusted] and [sharpe_non_iid] only through their call
    of [sharpe_iid]. *)
Theorem invalid_return_type_raises
  (lib : stats) (df : container) (t f p : f64) (m : Z) (w : nat)
  (q : option R) (rt : string) :
  valid_return_type rt = false ->
  validates_at_entry "kappa" (kappa df t m rt)
  /\ validates_at_entry "sortino" (sortino df t f rt)
  /\ validates_at_entry "sortino_iid" (sortino_iid df t f rt)
  /\ validates_at_entry "sharpe_iid" (sharpe_iid df t f rt)
  /\ validates_at_entry "sharpe_iid_rolling" (sharpe_iid_rolling df w t f rt)
  /\ omega df t rt
     = Raise AssertionError ["omega"; "kappa"; "validate_return_type"]
  /\ sharpe_iid_adjusted lib df t f rt
     = Raise AssertionError
         ["sharpe_iid_adjusted"; "sharpe_iid"; "validate_return_type"]
  /\ sharpe_non_iid lib df t q p rt
     = Raise AssertionError
         ["sharpe_non_iid"; "sharpe_iid"; "validate_return_type"].
Proof.
  intro H; unfold validates_at_entry.
  repeat split.
  - apply kappa_invalid, H.
  - unfold sortino; rewrite (validate_invalid rt H); reflexivity.
  - unfold sortino_iid; rewrite (validate_invalid rt H); reflexivity.
  - apply sharpe_iid_invalid, H.
  - unfold sharpe_iid_rolling; rewrite (validate_invalid rt H); reflexivity.
  - unfold omega; rewrite (kappa_invalid _ _ _ _ H); reflexivity.
  - unfold sharpe_iid_adjusted; rewrite (sharpe_iid_invalid _ _ _ _ H);
      reflexivity.
  - unfold sharpe_non_iid; rewrite (sharpe_iid_invalid _ _ _ _ H);
      reflexivity.
Qed.

Lemma invalid_return_type_raises_witness :
  valid_return_type "simple" = false
  /\ sharpe_non_iid plain_stats (NdArray [Fin 1; Fin 2]) (Fin 0) None
       (Fin (5 / 100)) "simple"
     = Raise AssertionError
         ["sharpe_non_iid"; "sharpe_iid"; "validate_return_type"].
Proof.
  split; [reflexivity |].
  apply (invalid_return_type_raises plain_stats (NdArray [Fin 1; Fin 2])
           (Fin 0) (Fin 1) (Fin (5 / 100)) 2%Z 2%nat None "simple").
  reflexivity.
Defined.

(** C6 as stated fails: [omega] has no check of its own, the error
    comes out of [kappa]. *)
Lemma omega_validates_only_through_kappa :
  ~ validates_at_entry "omega" (omega (NdArray [Fin 1; Fin 2]) (Fin 0) "simple").
Proof.
  unfold validates_at_entry, omega.
  rewrite kappa_invalid by reflexivity.
  discriminate.
Qed.

(** ** The default horizon of [sharpe_non_iid] (C5) *)

(** C5 as stated fails: the horizon used when the caller gives no [q]
    is not 252. *)
Lemma default_horizon_is_not_252 : horizon None <> 252%Z.
Proof.
  unfold horizon; rewrite round_half_even_IZR; vm_compute; discriminate.
Qed.

(** C5, as the code has it: without a [q] from the caller
    [sharpe_non_iid] works with the module's [trading_days], 255, and
    behaves as if the caller had passed 255. *)
Theorem default_horizon_is_255
  (lib : stats) (df : container) (bench p_critical : f64) (rt : string) :
  horizon None = 255%Z
  /\ sharpe_non_iid lib df bench None p_critical rt
     = sharpe_non_iid lib df bench (Some 255) p_critical rt.
Proof.
  split.
  - unfold horizon; rewrite round_half_even_IZR; reflexivity.
  - reflexivity.
Qed.

(** ** Division and the annualizers (C8) *)

Lemma div_fin (x y : R) : y <> 0 -> F64.div (Fin x) (Fin y) = Fin (x / y).
Proof. intro H; unfold F64.div; rewrite Reqb_false by assumption; reflexivity. Qed.

Lemma div_fin_zero (x : R) : F64.div (Fin x) (Fin 0) = F64.signed_inf x.
Proof. unfold F64.div; rewrite Reqb_true by reflexivity; reflexivity. Qed.

Lemma truediv_py_zero (v : f64) :
  truediv (PyNum v) (PyNum (Fin 0)) = Raise ZeroDivisionError [].
Proof. unfold truediv, is_zero; rewrite Reqb_true by reflexivity; reflexivity. Qed.

Lemma truediv_py_fin (x y : R) :
  y <> 0 -> truediv (PyNum (Fin x)) (PyNum (Fin y)) = Return (PyNum (Fin (x / y))).
Proof.
  intro H; unfold truediv, is_zero; rewrite Reqb_false by assumption.
  rewrite div_fin by assumption; reflexivity.
Qed.



Lemma quotient_nonzero (d a : R) : 0 < d -> a <> 0 -> d / a <> 0.
Proof.
  intros Hd Ha E; apply Rmult_integral in E; destruct E as [E | E]; [lra |].
  apply Rinv_neq_0_compat in Ha; contradiction.
Qed.



(** ** Scalars and labeled results (C9) *)

Lemma truediv_one_over (m : Z) :
  m <> 0%Z ->
  truediv (PyNum (Fin 1)) (PyNum (Fin (IZR m)))
  = Return (PyNum (Fin (1 / IZR m))).
Proof.
  intro H; apply truediv_py_fin.
  intro E; apply eq_IZR_R0 in E; contradiction.
Qed.

Lemma sortino_iid_ndarray_labeled (xs : list f64) (b f : f64) (rt : string) :
  valid_return_type rt = true ->
  exists v, sortino_iid (NdArray xs) b f rt = Return (Labeled [(IntLabel 0, v)]).
Proof.
  intro H; unfold sortino_iid; rewrite (validate_valid rt H); py_step.
  destruct (rt =? "pct"); eexists; reflexivity.
Qed.

(** C9 as stated fails: on a plain array [sortino_iid] returns a
    one-entry Series keyed by the column label [0], not a scalar. *)
Lemma sortino_iid_array_not_scalar :
  (exists v, sortino_iid (NdArray sortino_test_data) (Fin 0) (Fin 1) "log"
             = Return (Labeled [(IntLabel 0, v)]))
  /\ ~ (exists v, sortino_iid (NdArray sortino_test_data) (Fin 0) (Fin 1) "log"
                  = Return (Scalar v)).
Proof.
  destruct (sortino_iid_ndarray_labeled sortino_test_data (Fin 0) (Fin 1) "log"
              eq_refl) as [v Hv].
  split.
  - exists v; exact Hv.
  - intros [w Hw]; rewrite Hv in Hw; discriminate.
Qed.

(** C9, as the code has it: with a valid return type, [kappa] (moment
    not zero), [omega], [sortino], [sharpe_iid] and
    [sharpe_iid_adjusted] return a scalar for a plain array and for a
    Series and a column-keyed Series for a DataFrame, and so does
    [sharpe_non_iid] whenever it returns (on a one-dimensional input it
    returns as soon as [sharpe_autocorr_factor] does).  [sortino_iid]
    returns a scalar for a Series only: a plain array is first turned
    into a one-column DataFrame and the result is keyed by that
    column's label [0]. *)
Theorem ratio_result_shape
  (lib : stats) (c : container) (t f p : f64) (m : Z) (q : option R)
  (rt : string) :
  valid_return_type rt = true ->
  m <> 0%Z ->
  (exists r, kappa c t m rt = Return r
             /\ is_scalar r = negb (is_dataframe c))
  /\ (exists r, omega c t rt = Return r
                /\ is_scalar r = negb (is_dataframe c))
  /\ (exists r, sortino c t f rt = Return r
                /\ is_scalar r = negb (is_dataframe c))
  /\ (exists r, sharpe_iid c t f rt = Return r
                /\ is_scalar r = negb (is_dataframe c))
  /\ (exists r, sharpe_iid_adjusted lib c t f rt = Return r
                /\ is_scalar r = negb (is_dataframe c))
  /\ (forall r, sharpe_non_iid lib c t q p rt = Return r ->
                is_scalar r = negb (is_dataframe c))
  /\ (is_dataframe c = false ->
      forall fp, sharpe_autocorr_factor lib (values c) (horizon q) = Return fp ->
                 exists v, sharpe_non_iid lib c t q p rt = Return (Scalar v))
  /\ (exists r, sortino_iid c t f rt = Return r
                /\ is_scalar r = is_series c)
  /\ (forall xs, c = NdArray xs ->
                 exists v, sortino_iid c t f rt = Return (Labeled [(IntLabel 0, v)])).
Proof.
  intros H Hm.
  assert (Hk : forall m', m' <> 0%Z ->
            exists r, kappa c t m' rt = Return r
                      /\ is_scalar r = negb (is_dataframe c)).
  { intros m' Hm'. unfold kappa; rewrite (validate_valid rt H); py_step.
    rewrite (truediv_one_over m' Hm'); py_step.
    unfold LPM; destruct c, (rt =? "pct"); eexists; split; reflexivity. }
  assert (Hs : forall f', exists r, sharpe_iid c t f' rt = Return r
                      /\ is_scalar r = negb (is_dataframe c)).
  { intro f'. unfold sharpe_iid; rewrite (validate_valid rt H); py_step.
    destruct c, (rt =? "pct"); eexists; split; reflexivity. }
  split; [apply Hk, Hm |].
  split.
  { destruct (Hk 1%Z ltac:(lia)) as [r [Hr Hshape]].
    unfold omega; rewrite Hr; py_step.
    eexists; split; [reflexivity |].
    rewrite <- Hshape; destruct r; reflexivity. }
  split.
  { unfold sortino; rewrite (validate_valid rt H); py_step.
    unfold LPM; destruct c, (rt =? "pct"); eexists; split; reflexivity. }
  split; [apply Hs |].
  split.
  { destruct (Hs (Fin 1)) as [r [Hr Hshape]].
    unfold sharpe_iid_adjusted; rewrite Hr; py_step.
    eexists; split; [reflexivity |].
    unfold adjusted_sharpe; destruct c, r; cbn in Hshape;
      try discriminate Hshape; reflexivity. }
  split.
  { intros r0. destruct (Hs (Fin 1)) as [r [Hr Hshape]].
    unfold sharpe_non_iid; rewrite Hr; py_step.
    destruct c as [xs | xs | cols]; cbn [is_dataframe negb] in *.
    - destruct (sharpe_autocorr_factor lib xs (horizon q)) as [[a pv] | e tb];
        py_step; [| discriminate].
      destruct (F64.ltb pv p), r; try discriminate;
        intro E; injection E as <-; reflexivity.
    - destruct (sharpe_autocorr_factor lib xs (horizon q)) as [[a pv] | e tb];
        py_step; [| discriminate].
      destruct (F64.ltb pv p), r; try discriminate;
        intro E; injection E as <-; reflexivity.
    - match goal with |- context [mapM ?g cols] => destruct (mapM g cols) end;
        py_step; [| discriminate].
      destruct r; intro E; injection E as <-; reflexivity. }
  split.
  { intros Hc [a pv] Hfp. destruct (Hs (Fin 1)) as [r [Hr Hshape]].
    rewrite Hc in Hshape.
    destruct r as [sr | vs]; [| discriminate].
    unfold sharpe_non_iid; rewrite Hr; py_step.
    destruct c as [xs | xs | cols]; [| | discriminate];
      cbn [values] in Hfp; rewrite Hfp; py_step;
      destruct (F64.ltb pv p); eexists; reflexivity. }
  split.
  { unfold sortino_iid; rewrite (validate_valid rt H); py_step.
    destruct c, (rt =? "pct"); eexists; split; reflexivity. }
  intros xs ->. apply sortino_iid_ndarray_labeled, H.
Qed.

Lemma ratio_result_shape_witness :
  valid_return_type "log" = true
  /\ 2%Z <> 0%Z
  /\ exists r, sortino (PdSeries sortino_test_data) (Fin 0) (Fin 1) "log" = Return r
               /\ is_scalar r = true.
Proof.
  assert (H2 : 2%Z <> 0%Z) by lia.
  split; [reflexivity | split; [exact H2 |]].
  exact (proj1 (proj2 (proj2
           (ratio_result_shape plain_stats (PdSeries sortino_test_data)
              (Fin 0) (Fin 1) (Fin (5 / 100)) 2%Z None "log" eq_refl H2)))).
Defined.

(** ** [omega_empirical] hands back nothing (C10) *)

Lemma frame_some_inv {A} (name : string) (body : result (option A)) (v : A) :
  frame name body = Return (Some v) -> body = Return (Some v).
Proof. destruct body; cbn; [trivial | discriminate]. Qed.

Lemma pct_to_log_return_kind (c : container) :
  match c, pct_to_log_return c with
  | NdArray xs, NdArray ys
  | PdSeries xs, PdSeries ys => length ys = length xs
  | PdDataFrame _, PdDataFrame _ => True
  | _, _ => False
  end.
Proof.
  destruct c; cbn; trivial; now rewrite !length_map.
Qed.

(** C10: with [plot=False] the function gives no number.  Whatever the
    input, what it returns is never a value; and for a non-empty
    one-dimensional input, a valid return type and a grid size that is
    not negative, it comes back with [None]. *)
Theorem omega_empirical_returns_none
  (lib : stats) (returns : container) (t : f64) (rt : string) (steps : Z) :
  (forall v, omega_empirical lib returns t rt false steps <> Return (Some v))
  /\ (valid_return_type rt = true ->
      is_dataframe returns = false ->
      values returns <> [] ->
      (0 <= steps)%Z ->
      omega_empirical lib returns t rt false steps = Return None).
Proof.
  split.
  - intros v E; apply frame_some_inv in E.
    destruct (validate_return_type rt); cbn [bind] in E; [| discriminate].
    destruct (ECDF _); cbn [bind] in E; [| discriminate].
    destruct (method_min _); cbn [bind] in E; [| discriminate].
    destruct (method_max _); cbn [bind] in E; [| discriminate].
    destruct (linspace _ _ _); cbn [bind] in E; discriminate.
  - intros Hrt Hdf Hne Hsteps.
    unfold omega_empirical; rewrite (validate_valid rt Hrt); py_step.
    pose proof (pct_to_log_return_kind returns) as Hkind.
    set (rs := if rt =? "pct" then pct_to_log_return returns else returns).
    assert (Hrs : exists x xs, rs = NdArray (x :: xs) \/ rs = PdSeries (x :: xs)).
    { subst rs. destruct returns as [xs | xs | cols]; [| | discriminate];
        cbn [values] in Hne; destruct (rt =? "pct").
      - destruct (pct_to_log_return (NdArray xs)) as [ys | ys | cs];
          try contradiction.
        destruct ys as [| y ys]; [destruct xs; [contradiction | discriminate] |].
        eauto.
      - destruct xs; [contradiction | eauto].
      - destruct (pct_to_log_return (PdSeries xs)) as [ys | ys | cs];
          try contradiction.
        destruct ys as [| y ys]; [destruct xs; [contradiction | discriminate] |].
        eauto.
      - destruct xs; [contradiction | eauto]. }
    destruct Hrs as [x [xs [-> | ->]]]; cbn [ECDF method_min method_max bind];
      unfold reduce; cbn [bind].
    + unfold linspace.
      destruct (steps <? 0)%Z eqn:Hneg; [lia |].
      destruct (steps =? 1)%Z; reflexivity.
    + destruct (F64.dropna (x :: xs)); unfold linspace;
        (destruct (steps <? 0)%Z eqn:Hneg; [lia |]);
        destruct (steps =? 1)%Z; reflexivity.
Qed.

Lemma omega_empirical_returns_none_witness :
  valid_return_type "pct" = true
  /\ omega_empirical plain_stats (NdArray sortino_test_data) (Fin 0) "pct"
       false 1000
     = Return None.
Proof.
  split; [reflexivity |].
  apply (proj2 (omega_empirical_returns_none plain_stats
                  (NdArray sortino_test_data) (Fin 0) "pct" 1000)).
  - reflexivity.
  - reflexivity.
  - discriminate.
  - lia.
Defined.

(** ** Percentage and log returns (C7) *)

Lemma log_fin (x : R) : 0 < x -> F64.log (Fin x) = Fin (ln x).
Proof. intro H; unfold F64.log; rewrite Rltb_true by assumption; reflexivity. Qed.

Lemma round_trip_entry (prepare : f64 -> f64) (v : f64) :
  (forall x, prepare (Fin x) = Fin x) ->
  admissible_pct v ->
  F64.sub (F64.exp (F64.log (F64.add (Fin 1) (prepare v)))) (Fin 1) = v.
Proof.
  intros Hprep [x [-> Hx]].
  rewrite Hprep; cbn [F64.add].
  rewrite log_fin by assumption.
  cbn [F64.exp F64.sub F64.neg F64.add].
  rewrite exp_ln by assumption.
  f_equal; ring.
Qed.

Lemma round_trip_list (prepare : f64 -> f64) (xs : list f64) :
  (forall x, prepare (Fin x) = Fin x) ->
  Forall admissible_pct xs ->
  map (fun x => F64.sub (F64.exp x) (Fin 1))
    (map F64.log (map (F64.add (Fin 1)) (map prepare xs))) = xs.
Proof.
  intros Hprep Hall.
  induction Hall as [| v vs Hv _ IH]; cbn [map]; [reflexivity |].
  rewrite (round_trip_entry prepare v Hprep Hv), IH; reflexivity.
Qed.

(** C7: on a percentage series whose every entry [p] has [1 + p > 0],
    going to log returns and back gives the series again (exactly, the
    arithmetic of the embedding being exact). *)
Theorem log_to_pct_of_pct_to_log (p : container) :
  every_entry admissible_pct p ->
  log_to_pct_return (pct_to_log_return p) = p.
Proof.
  intro H.
  destruct p as [xs | xs | cols];
    unfold log_to_pct_return, pct_to_log_return;
    cbn [is_pandas cmap every_entry] in *.
  - f_equal; apply round_trip_list; [reflexivity | assumption].
  - f_equal; apply round_trip_list; [reflexivity | assumption].
  - f_equal.
    induction H as [| [l xs] cs Hxs _ IH]; cbn [map fst snd]; [reflexivity |].
    cbn [snd] in Hxs.
    rewrite (round_trip_list (F64.fillna (Fin 0)) xs) by (reflexivity || assumption).
    f_equal; exact IH.
Qed.

Lemma log_to_pct_of_pct_to_log_witness :
  log_to_pct_return (pct_to_log_return (NdArray [Fin (1 / 10); Fin (- 1 / 2)]))
  = NdArray [Fin (1 / 10); Fin (- 1 / 2)].
Proof.
  apply log_to_pct_of_pct_to_log.
  cbn [every_entry].
  repeat constructor; eexists; (split; [reflexivity | lra]).
Defined.

(** ** The lower partial moment (C4) *)

Lemma IZR_pos (n : Z) : (1 <= n)%Z -> 0 < IZR n.
Proof. intro H; apply IZR_lt; lia. Qed.

Lemma lpm_entry_nan (t : R) (n : Z) : (1 <= n)%Z -> lpm_entry t n NaN = NaN.
Proof.
  intro H; pose proof (IZR_pos n H).
  unfold lpm_entry; cbn [F64.sub F64.neg F64.add F64.maximum F64.power].
  rewrite Reqb_false by lra; reflexivity.
Qed.

Lemma lpm_entry_below (t : R) (n : Z) (a : f64) :
  (1 <= n)%Z -> F64.ltb a (Fin t) = true ->
  lpm_entry t n a = PInf \/ exists y, lpm_entry t n a = Fin y /\ 0 < y.
Proof.
  intros H Hlt; pose proof (IZR_pos n H) as Hn.
  unfold lpm_entry.
  destruct a as [x | | |]; cbn [F64.ltb] in Hlt; try discriminate.
  - apply Rltb_spec in Hlt.
    cbn [F64.sub F64.neg F64.add F64.maximum F64.power].
    rewrite Reqb_false by lra.
    rewrite Rltb_true by (unfold Rmax; destruct (Rle_dec (t + - x) 0); lra).
    right; eexists; split; [reflexivity |].
    unfold Rpower; apply exp_pos.
  - cbn [F64.sub F64.neg F64.add F64.maximum F64.power].
    rewrite Reqb_false by lra. rewrite Rltb_true by assumption.
    left; reflexivity.
Qed.

Lemma lpm_entry_not_below (t : R) (n : Z) (a : f64) :
  (1 <= n)%Z -> F64.notnan a = true -> F64.ltb a (Fin t) = false ->
  lpm_entry t n a = Fin 0.
Proof.
  intros H Ha Hlt; pose proof (IZR_pos n H) as Hn.
  unfold lpm_entry.
  destruct a as [x | | |]; cbn [F64.ltb] in Hlt; try discriminate.
  - assert (Hx : t <= x).
    { destruct (Rlt_dec x t) as [L | L]; [| lra].
      rewrite (Rltb_true _ _ L) in Hlt; discriminate. }
    cbn [F64.sub F64.neg F64.add F64.maximum F64.power].
    rewrite Reqb_false by lra.
    replace (Rmax (t + - x) 0) with 0
      by (unfold Rmax; destruct (Rle_dec (t + - x) 0); lra).
    rewrite Rltb_false by lra.
    rewrite Reqb_true by reflexivity.
    rewrite Rltb_true by assumption; reflexivity.
  - cbn [F64.sub F64.neg F64.add F64.maximum F64.power].
    rewrite Reqb_false by lra.
    rewrite Rltb_false by lra.
    rewrite Reqb_true by reflexivity.
    rewrite Rltb_true by assumption; reflexivity.
Qed.

Lemma lpm_entry_notnan (t : R) (n : Z) (a : f64) :
  (1 <= n)%Z -> F64.notnan (lpm_entry t n a) = F64.notnan a.
Proof.
  intro H.
  destruct a as [x | | |].
  - destruct (F64.ltb (Fin x) (Fin t)) eqn:E.
    + destruct (lpm_entry_below t n (Fin x) H E) as [-> | [y [-> _]]];
        reflexivity.
    + rewrite (lpm_entry_not_below t n (Fin x) H eq_refl E); reflexivity.
  - rewrite (lpm_entry_not_below t n PInf H eq_refl eq_refl); reflexivity.
  - destruct (lpm_entry_below t n NInf H eq_refl) as [-> | [y [-> _]]];
      reflexivity.
  - rewrite lpm_entry_nan by assumption; reflexivity.
Qed.

Lemma dropna_lpm_entries (t : R) (n : Z) (xs : list f64) :
  (1 <= n)%Z ->
  F64.dropna (map (lpm_entry t n) xs) = map (lpm_entry t n) (F64.dropna xs).
Proof.
  intro H; unfold F64.dropna.
  induction xs as [| a xs IH]; cbn [map filter]; [reflexivity |].
  rewrite lpm_entry_notnan by assumption.
  destruct (F64.notnan a); cbn [map]; rewrite IH; reflexivity.
Qed.

Lemma sum_nonneg (zs : list f64) :
  Forall nonneg zs ->
  nonneg (F64.sum zs) /\ (F64.sum zs = Fin 0 <-> Forall (eq (Fin 0)) zs).
Proof.
  induction 1 as [| z zs Hz _ [IHn IHz]]; cbn [F64.sum fold_right].
  - split; [right; exists 0; split; [reflexivity | lra] |].
    split; constructor.
  - fold (F64.sum zs).
    destruct Hz as [-> | [y [-> Hy]]], IHn as [Hs | [s [Hs Hs0]]];
      rewrite Hs in *; cbn [F64.add].
    + split; [left; reflexivity |].
      split; [discriminate | intro F; inversion F; discriminate].
    + split; [left; reflexivity |].
      split; [discriminate | intro F; inversion F; discriminate].
    + split; [left; reflexivity |].
      split; [discriminate |].
      intro F; inversion F as [| ? ? _ F']; apply IHz in F'; discriminate.
    + split; [right; exists (y + s); split; [reflexivity | lra] |].
      split.
      * intro E; injection E as E.
        assert (y = 0) by lra; assert (s = 0) by lra; subst.
        constructor; [reflexivity | apply IHz; reflexivity].
      * intro F; inversion F as [| ? ? Ey F']; apply IHz in F'.
        injection Ey as Ey; injection F' as F'; f_equal; lra.
Qed.

Lemma dropna_nonempty (xs : list f64) :
  has_observation xs -> (0 < length (F64.dropna xs))%nat.
Proof.
  unfold has_observation, F64.dropna.
  induction xs as [| a xs IH]; cbn [existsb filter]; [discriminate |].
  destruct (F64.notnan a); cbn [orb length]; [lia | assumption].
Qed.

Lemma ltb_nan (b : f64) : F64.ltb NaN b = false.
Proof. destruct b; reflexivity. Qed.

Lemma lpm_series (t : R) (n : Z) (xs : list f64) :
  (1 <= n)%Z -> has_observation xs ->
  lpm_guarantee t xs (F64.nanmean (map (lpm_entry t n) xs)).
Proof.
  intros Hn Hobs.
  unfold F64.nanmean, F64.mean, F64.count.
  rewrite dropna_lpm_entries by assumption.
  rewrite length_map.
  pose proof (dropna_nonempty xs Hobs) as Hlen.
  assert (Hc : 0 < INR (length (F64.dropna xs))) by (apply lt_0_INR; assumption).
  set (c := INR (length (F64.dropna xs))) in *.
  assert (Hall : Forall nonneg (map (lpm_entry t n) (F64.dropna xs))).
  { apply Forall_forall; intros z Hz.
    apply in_map_iff in Hz; destruct Hz as [a [<- Ha]].
    apply filter_In in Ha; destruct Ha as [_ Ha].
    destruct (F64.ltb a (Fin t)) eqn:E.
    - destruct (lpm_entry_below t n a Hn E) as [-> | [y [-> Hy]]];
        [left; reflexivity | right; exists y; split; [reflexivity | lra]].
    - rewrite (lpm_entry_not_below t n a Hn Ha E).
      right; exists 0; split; [reflexivity | lra]. }
  destruct (sum_nonneg _ Hall) as [Hsum Hzero].
  assert (Hiff : Forall (eq (Fin 0)) (map (lpm_entry t n) (F64.dropna xs))
                 <-> forall a, In a xs -> F64.ltb a (Fin t) = false).
  { rewrite Forall_forall; split.
    - intros Hz a Ha.
      destruct a as [x | | |]; try apply ltb_nan;
        match goal with |- F64.ltb ?a _ = _ =>
          destruct (F64.ltb a (Fin t)) eqn:E; [| reflexivity];
          assert (Hin : In (lpm_entry t n a) (map (lpm_entry t n) (F64.dropna xs)))
            by (apply in_map, filter_In; split; [exact Ha | reflexivity]);
          apply Hz in Hin;
          destruct (lpm_entry_below t n a Hn E) as [Hp | [y [Hp Hy]]];
          rewrite Hp in Hin; [discriminate | injection Hin as Hin; lra]
        end.
    - intros Hnb z Hz.
      apply in_map_iff in Hz; destruct Hz as [a [<- Ha]].
      apply filter_In in Ha; destruct Ha as [Ha Hnn].
      symmetry; apply lpm_entry_not_below; auto. }
  unfold lpm_guarantee.
  destruct Hsum as [Hs | [s [Hs Hs0]]]; rewrite Hs in *.
  - cbn [F64.div]. rewrite Rltb_false by lra.
    split; [reflexivity |].
    rewrite <- Hiff, <- Hzero; split; discriminate.
  - rewrite div_fin by lra.
    split.
    + cbn [F64.leb]; apply Rleb_true.
      apply Rmult_le_pos; [assumption | left; apply Rinv_0_lt_compat; assumption].
    + rewrite <- Hiff, <- Hzero; split; intro E; injection E as E; f_equal.
      * apply Rmult_integral in E; destruct E as [E | E]; [assumption |].
        pose proof (Rinv_0_lt_compat c Hc); lra.
      * subst s; unfold Rdiv; ring.
Qed.

(** In exact arithmetic: for a series with an observation that is not
    missing, a finite target and a moment order [n >= 1], [LPM] is
    zero or more, and it is zero exactly when no observation is below
    the target.  For a DataFrame this holds column by column.  The
    second half does not survive underflow, see [LPM_binary64]
    below. *)
Theorem LPM_nonneg_and_zero_iff (returns : container) (t : R) (n : Z) :
  (1 <= n)%Z ->
  every_column has_observation returns ->
  match returns, LPM returns (Fin t) n with
  | NdArray xs, Scalar v | PdSeries xs, Scalar v => lpm_guarantee t xs v
  | PdDataFrame cols, Labeled vs =>
      Forall2 (fun lc lv => fst lv = fst lc
                            /\ lpm_guarantee t (snd lc) (snd lv)) cols vs
  | _, _ => False
  end.
Proof.
  intros Hn Hobs.
  destruct returns as [xs | xs | cols];
    unfold LPM, np_nanmean, pd_mean, maxzero, clip_min;
    cbn [is_pandas cmap reduce every_column] in *.
  - rewrite !map_map; apply (lpm_series t n xs Hn Hobs).
  - rewrite !map_map; apply (lpm_series t n xs Hn Hobs).
  - induction Hobs as [| [l xs] cs Hxs _ IH]; cbn [map fst snd];
      constructor; [| exact IH].
    cbn [fst snd] in *; split; [reflexivity |].
    rewrite !map_map; apply (lpm_series t n xs Hn Hxs).
Qed.

Lemma LPM_nonneg_and_zero_iff_witness :
  lpm_guarantee 0 sortino_test_data
    (F64.nanmean (map (lpm_entry 0 2) sortino_test_data)).
Proof.
  exact (LPM_nonneg_and_zero_iff (NdArray sortino_test_data) 0 2
           ltac:(lia) eq_refl).
Defined.

(** ** Evaluating on finite values *)

Lemma sqrt_fin (x : R) : 0 <= x -> F64.sqrt (Fin x) = Fin (sqrt x).
Proof. intro H; unfold F64.sqrt; rewrite Rltb_false by assumption; reflexivity. Qed.

Lemma power_fin_pos (x y : R) :
  0 < x -> y <> 0 -> F64.power (Fin x) (Fin y) = Fin (Rpower x y).
Proof.
  intros Hx Hy; unfold F64.power.
  rewrite Reqb_false by assumption; rewrite Rltb_true by assumption.
  reflexivity.
Qed.

Lemma power_zero_pos (y : R) : 0 < y -> F64.power (Fin 0) (Fin y) = Fin 0.
Proof.
  intro Hy; unfold F64.power.
  rewrite Reqb_false by lra; rewrite Rltb_false by lra.
  rewrite Reqb_true by reflexivity; rewrite Rltb_true by assumption.
  reflexivity.
Qed.

Lemma power_nan (y : R) : y <> 0 -> F64.power NaN (Fin y) = NaN.
Proof. intro Hy; unfold F64.power; rewrite Reqb_false by assumption; reflexivity. Qed.

Lemma Rpower_one_base (y : R) : Rpower 1 y = 1.
Proof. unfold Rpower; rewrite ln_1, Rmult_0_r; apply exp_0. Qed.

Lemma sqrt_4 : sqrt 4 = 2.
Proof. apply sqrt_lem_1; lra. Qed.

Lemma sqrt_quarter : sqrt (1 / 4) = 1 / 2.
Proof. apply sqrt_lem_1; lra. Qed.

(** Equality of two lists of finite values, entry by entry. *)
Ltac fins :=
  repeat match goal with
         | |- Fin _ :: _ = Fin _ :: _ => apply f_equal2; [apply f_equal; lra |]
         end;
  try reflexivity.

(** ** The autocorrelation factor (C1) *)

Lemma autocorr_test_acovf (k : nat) :
  (k < 4)%nat ->
  acovf autocorr_test_data k = Fin (nth k [1; 1 / 4; - 1 / 2; - 1 / 4] 0).
Proof.
  intro Hk.
  unfold acovf, lagged_products, autocorr_test_data, F64.count.
  cbn [length].
  replace (INR 4) with 4 by (simpl; lra).
  cbn [F64.sum fold_right F64.add].
  rewrite div_fin by lra.
  cbn [map F64.sub F64.neg F64.add].
  destruct k as [| [| [| [| k]]]]; [| | | | lia];
    cbn [skipn zip_values F64.mul F64.sum fold_right F64.add nth];
    rewrite div_fin by lra; f_equal; lra.
Qed.

Lemma autocorr_test_acf :
  acf_biased autocorr_test_data 3
  = [Fin 1; Fin (1 / 4); Fin (- 1 / 2); Fin (- 1 / 4)].
Proof.
  unfold acf_biased.
  change (seq 0 _) with [0; 1; 2; 3]%nat.
  cbn [map].
  rewrite !autocorr_test_acovf by lia.
  cbn [nth].
  repeat (rewrite div_fin by lra).
  fins.
Qed.

Lemma three_halves_not_lo : 3 / 2 <> 3 / sqrt 3.
Proof.
  intro E.
  assert (H3 : 0 < sqrt 3) by (apply sqrt_lt_R0; lra).
  assert (Hs : sqrt 3 = 2).
  { apply (Rmult_eq_reg_l (3 / 2 * / sqrt 3)).
    - rewrite E at 1. field_simplify; lra.
    - apply Rmult_integral_contrapositive_currified;
        [lra | apply Rinv_neq_0_compat; lra]. }
  assert (Hsq : sqrt 3 * sqrt 3 = 3) by (apply sqrt_sqrt; lra).
  rewrite Hs in Hsq; lra.
Qed.

(** C1 fails on the code: the comprehension runs over [range(q - 2)],
    that is [k = 0 .. q-3], and the autocorrelation at lag [q-1] never
    enters.  On the series [1, 1, -1, -1] with [q = 3] the function
    returns the factor [3 / sqrt(3 + 2 * (2 * 1/4)) = 3/2], where the
    formula of the specification, which adds the lag-2 term
    [1 * (-1/2)], gives [3 / sqrt 3]. *)
Theorem autocorr_factor_misses_last_lag (lib : stats) (p : f64) :
  getitem (ljungbox_pvalues lib autocorr_test_data 3) (-2) = Return p ->
  sharpe_autocorr_factor lib autocorr_test_data 3 = Return (Fin (3 / 2), p)
  /\ lo_factor_spec (acf_biased autocorr_test_data 3) 3
     = Return (Fin (3 / sqrt 3))
  /\ 3 / 2 <> 3 / sqrt 3.
Proof.
  intro Hp; split; [| split; [| exact three_halves_not_lo]].
  - unfold sharpe_autocorr_factor, sts_acf.
    rewrite autocorr_test_acf, Hp.
    change (range (3 - 2)) with [0%Z].
    cbn [mapM].
    change (getitem _ (0 + 1)) with (Return (A := f64) (Fin (1 / 4))).
    py_step.
    cbn [F64.mul F64.sum fold_right F64.add].
    replace (3 + 2 * (IZR (3 - (0 + 1)) * (1 / 4) + 0)) with 4
      by (simpl; lra).
    rewrite sqrt_fin by lra; rewrite sqrt_4.
    rewrite div_fin by lra; reflexivity.
  - unfold lo_factor_spec.
    rewrite autocorr_test_acf.
    change (range (3 - 1)) with [0%Z; 1%Z].
    cbn [mapM].
    change (getitem _ (0 + 1)) with (Return (A := f64) (Fin (1 / 4))).
    change (getitem _ (1 + 1)) with (Return (A := f64) (Fin (- 1 / 2))).
    py_step.
    cbn [F64.mul F64.sum fold_right F64.add].
    replace (3 + 2 * (IZR (3 - (0 + 1)) * (1 / 4)
                      + (IZR (3 - (1 + 1)) * (- 1 / 2) + 0))) with 3
      by (simpl; lra).
    rewrite sqrt_fin by lra.
    rewrite div_fin; [reflexivity |].
    assert (0 < sqrt 3) by (apply sqrt_lt_R0; lra); lra.
Qed.

Lemma autocorr_factor_misses_last_lag_witness :
  sharpe_autocorr_factor plain_stats autocorr_test_data 3
  = Return (Fin (3 / 2), Fin 1).
Proof.
  exact (proj1 (autocorr_factor_misses_last_lag plain_stats (Fin 1) eq_refl)).
Defined.
(** ** Two Sortino ratios (C3) *)

Lemma is_int_two : F64.is_int 2 = true.
Proof. unfold F64.is_int; rewrite Int_part_IZR; apply Reqb_true; reflexivity. Qed.

Lemma is_odd_int_two : F64.is_odd_int 2 = false.
Proof. unfold F64.is_odd_int; rewrite is_int_two, Int_part_IZR; reflexivity. Qed.

Lemma nanmean_gapped (v : R) : F64.nanmean [NaN; NaN; NaN; Fin v] = Fin v.
Proof.
  unfold F64.nanmean, F64.mean, F64.dropna, F64.count.
  cbn [filter F64.notnan F64.isnan negb length INR F64.sum fold_right F64.add].
  rewrite div_fin by lra; f_equal; lra.
Qed.

Lemma nanmean_four (a b c d : R) :
  F64.nanmean [Fin a; Fin b; Fin c; Fin d] = Fin ((a + b + c + d) / 4).
Proof.
  unfold F64.nanmean, F64.mean, F64.dropna, F64.count.
  cbn [filter F64.notnan F64.isnan negb length F64.sum fold_right F64.add].
  replace (INR 4) with 4 by (simpl; lra).
  rewrite div_fin by lra; f_equal; lra.
Qed.

Lemma square_negative (x : R) :
  x < 0 -> F64.power (Fin x) (Fin 2) = Fin (Rpower (- x) 2).
Proof.
  intro H; unfold F64.power.
  rewrite Reqb_false by lra. rewrite Rltb_false by lra.
  rewrite Reqb_false by lra.
  rewrite is_int_two, is_odd_int_two; reflexivity.
Qed.

(** C3 fails on the code.  In [sortino] the squared shortfalls are
    averaged over the observations that are present ([LPM] skips the
    missing ones); in [sortino_iid] the missing entries of the
    downside series are first filled with zero and the average runs
    over all rows.  On the log-return series [NaN, NaN, NaN, -1] with
    target 0 and factor 1 the former gives [-1 / sqrt 1 = -1] and the
    latter [-1 / sqrt (1/4) = -2]. *)
Theorem sortino_and_sortino_iid_differ :
  sortino gapped_series (Fin 0) (Fin 1) "log" = Return (Scalar (Fin (-1)))
  /\ sortino_iid gapped_series (Fin 0) (Fin 1) "log" = Return (Scalar (Fin (-2)))
  /\ Rabs (-1 - -2) > tolerance.
Proof.
  split; [| split].
  - unfold sortino, gapped_series.
    rewrite validate_valid by reflexivity; py_step.
    cbn [String.eqb Ascii.eqb Bool.eqb is_pandas].
    unfold LPM, pd_mean, maxzero.
    cbn [is_pandas cmap reduce map rmap rlift2
         F64.sub F64.neg F64.add F64.maximum].
    rewrite !power_nan by lra.
    replace (Rmax (0 + - (-1)) 0) with 1 by (rewrite Rmax_left; lra).
    rewrite power_fin_pos by lra; rewrite Rpower_one_base.
    rewrite !nanmean_gapped.
    cbn [F64.sub F64.neg F64.add].
    rewrite sqrt_fin by lra; rewrite sqrt_1.
    rewrite div_fin by lra.
    cbn [F64.mul frame]; repeat f_equal; lra.
  - unfold sortino_iid, gapped_series.
    rewrite validate_valid by reflexivity; py_step.
    cbn [String.eqb Ascii.eqb Bool.eqb].
    unfold minus, pd_mean, where_negative.
    cbn [cmap reduce map rmap rlift2 F64.sub F64.neg F64.add F64.ltb F64.fillna].
    rewrite Rltb_true by lra.
    cbn [F64.fillna].
    rewrite power_zero_pos by lra.
    rewrite square_negative by lra.
    replace (- (-1 + - 0)) with 1 by lra; rewrite Rpower_one_base.
    rewrite nanmean_gapped, nanmean_four.
    replace ((0 + 0 + 0 + 1) / 4) with (1 / 4) by lra.
    rewrite sqrt_fin by lra; rewrite sqrt_quarter.
    cbn [F64.mul].
    rewrite div_fin by lra.
    cbn [frame]; repeat f_equal; lra.
  - replace (-1 - -2) with 1 by lra.
    rewrite Rabs_R1; unfold tolerance; lra.
Qed.
(** ** Where the two Sortino ratios agree *)

Lemma dropna_fins (rs : list R) : F64.dropna (map Fin rs) = map Fin rs.
Proof.
  unfold F64.dropna; induction rs as [| r rs IH]; cbn; [reflexivity |].
  now f_equal.
Qed.

Lemma sum_fins (rs : list R) :
  F64.sum (map Fin rs) = Fin (fold_right Rplus 0 rs).
Proof.
  unfold F64.sum; induction rs as [| r rs IH]; cbn [map fold_right];
    [reflexivity |].
  rewrite IH; reflexivity.
Qed.

Lemma nanmean_fins (rs : list R) :
  F64.nanmean (map Fin rs)
  = F64.div (Fin (fold_right Rplus 0 rs)) (Fin (INR (length rs))).
Proof.
  unfold F64.nanmean, F64.mean, F64.count.
  rewrite dropna_fins, sum_fins, length_map; reflexivity.
Qed.

Lemma sum_shift (t : R) (rs : list R) :
  fold_right Rplus 0 (map (fun x => x + - t) rs)
  = fold_right Rplus 0 rs - INR (length rs) * t.
Proof.
  induction rs as [| r rs IH]; [cbn; lra |].
  cbn [map fold_right length]; rewrite IH, S_INR; lra.
Qed.

Lemma nanmean_shift (t : R) (rs : list R) :
  F64.nanmean (map (fun r => F64.sub r (Fin t)) (map Fin rs))
  = F64.sub (F64.nanmean (map Fin rs)) (Fin t).
Proof.
  rewrite map_map.
  change (map (fun x => F64.sub (Fin x) (Fin t)) rs)
    with (map (fun x => Fin ((fun y => y + - t) x)) rs).
  rewrite <- (map_map (fun y => y + - t) Fin).
  rewrite !nanmean_fins, length_map, sum_shift.
  destruct rs as [| r rs].
  - cbn [length INR fold_right]. rewrite !div_fin_zero.
    replace (0 - 0 * t) with 0 by lra.
    unfold F64.signed_inf; rewrite !Rltb_false by lra; reflexivity.
  - assert (H : INR (length (r :: rs)) <> 0)
      by (apply not_0_INR; discriminate).
    rewrite !div_fin by assumption.
    cbn [F64.sub F64.neg F64.add]; f_equal; field; assumption.
Qed.

Lemma downside_square (t x : R) :
  F64.power (F64.fillna (Fin 0) (where_negative (F64.sub (Fin x) (Fin t))))
    (Fin 2)
  = F64.power (maxzero (F64.sub (Fin t) (Fin x))) (Fin 2).
Proof.
  unfold where_negative, maxzero.
  cbn [F64.sub F64.neg F64.add F64.maximum F64.ltb].
  destruct (Rlt_dec x t) as [L | L].
  - rewrite Rltb_true by lra. cbn [F64.fillna].
    rewrite square_negative by lra.
    rewrite Rmax_left by lra.
    rewrite power_fin_pos by lra.
    f_equal; f_equal; lra.
  - rewrite Rltb_false by lra. cbn [F64.fillna].
    rewrite Rmax_right by lra; reflexivity.
Qed.

Ltac rltb_cases :=
  repeat match goal with
         | |- context [F64.Rltb ?a ?b] =>
             let H := fresh "H" in
             destruct (Rlt_dec a b) as [H | H];
             [rewrite (Rltb_true a b H) | rewrite (Rltb_false a b) by lra];
             cbn [F64.mul]; unfold F64.signed_inf
         end;
  try reflexivity;
  try (exfalso;
       repeat match goal with
              | H : ~ _ < _ |- _ => apply Rnot_lt_le in H
              end;
       nra).

Lemma scale_quotient (a f : R) (d : f64) :
  F64.mul (F64.div (Fin a) (F64.sqrt d)) (Fin f)
  = F64.div (F64.mul (Fin f) (Fin a)) (F64.sqrt d).
Proof.
  destruct d as [s | | |]; cbn [F64.sqrt]; try reflexivity.
  - destruct (Rlt_dec s 0) as [L | L];
      [rewrite Rltb_true by assumption; reflexivity |].
    rewrite Rltb_false by lra.
    cbn [F64.mul].
    destruct (Req_dec_T (sqrt s) 0) as [E | E].
    + rewrite E, !div_fin_zero. unfold F64.signed_inf. rltb_cases;
        exfalso; assert (a = 0) by lra; subst a; rewrite Rmult_0_r in *; lra.
    + rewrite !div_fin by assumption.
      cbn [F64.mul]; f_equal; field; assumption.
  - cbn [F64.div F64.mul]; f_equal; lra.
Qed.

(** On a Series of log returns without gaps the two formulations do
    agree, for every finite target and factor. *)
Lemma sortino_agree_without_gaps (rs : list R) (t f : R) :
  sortino (PdSeries (map Fin rs)) (Fin t) (Fin f) "log"
  = sortino_iid (PdSeries (map Fin rs)) (Fin t) (Fin f) "log".
Proof.
  unfold sortino, sortino_iid.
  rewrite validate_valid by reflexivity; py_step.
  cbn [String.eqb Ascii.eqb Bool.eqb is_pandas].
  unfold LPM, pd_mean, minus.
  cbn [is_pandas cmap reduce rmap rlift2].
  rewrite nanmean_shift.
  rewrite !map_map.
  rewrite (map_ext _ _ (downside_square t)).
  rewrite nanmean_fins.
  destruct rs as [| r rs].
  - cbn [length INR fold_right map]. rewrite div_fin_zero.
    unfold F64.signed_inf; rewrite !Rltb_false by lra; reflexivity.
  - rewrite div_fin by (apply not_0_INR; discriminate).
    cbn [F64.sub F64.neg F64.add].
    rewrite scale_quotient; reflexivity.
Qed.

(** ** Percentage returns in [kappa] (C2) *)

Lemma nanmean_two (a b : R) : F64.nanmean [Fin a; Fin b] = Fin ((a + b) / 2).
Proof.
  unfold F64.nanmean, F64.mean, F64.dropna, F64.count.
  cbn [filter F64.notnan F64.isnan negb length F64.sum fold_right F64.add].
  replace (INR 2) with 2 by (simpl; lra).
  rewrite div_fin by lra; f_equal; lra.
Qed.

Lemma ln_half_bound : ln (1 / 2) < - 1 / 2.
Proof.
  assert (H : 1 / 2 < exp (- 1 / 2)).
  { pose proof (exp_ineq1 (- 1 / 2)) as E. lra. }
  apply ln_increasing in H; [| lra].
  rewrite ln_exp in H; exact H.
Qed.

Lemma pct_test_data_converted :
  pct_to_log_return pct_test_data = NdArray [Fin (ln (1 / 2)); Fin 0].
Proof.
  unfold pct_to_log_return, pct_test_data.
  cbn [is_pandas cmap map F64.nan_to_num F64.add].
  replace (1 + -1 / 2) with (1 / 2) by lra.
  replace (1 + 0) with 1 by lra.
  rewrite !log_fin by lra.
  rewrite ln_1; reflexivity.
Qed.

Lemma minus_zero (c : container) : minus c (Fin 0) = c.
Proof.
  assert (E : forall xs, map (fun r => F64.sub r (Fin 0)) xs = xs).
  { induction xs as [| x xs IH]; cbn [map]; [reflexivity |].
    rewrite IH; f_equal.
    destruct x; cbn; trivial; f_equal; lra. }
  unfold minus; destruct c as [xs | xs | cols]; cbn [cmap]; f_equal; auto.
  induction cols as [| [l xs] cs IH]; cbn [map fst snd]; [reflexivity |].
  rewrite E, IH; reflexivity.
Qed.

Lemma kappa_pct_test_value :
  kappa pct_test_data (Fin 0) 1 "pct" = Return (Scalar (Fin (2 * ln (1 / 2)))).
Proof.
  pose proof ln_half_bound as Hln.
  unfold kappa.
  rewrite validate_valid by reflexivity; py_step.
  cbn [String.eqb Ascii.eqb Bool.eqb].
  rewrite minus_zero, pct_test_data_converted.
  rewrite truediv_one_over by lia; py_step.
  unfold LPM, np_nanmean, pct_test_data, clip_min.
  cbn [is_pandas cmap reduce map rmap rlift2
       F64.sub F64.neg F64.add F64.maximum].
  replace (Rmax (0 + - (-1 / 2)) 0) with (1 / 2) by (rewrite Rmax_left; lra).
  replace (Rmax (0 + - 0) 0) with 0 by (rewrite Rmax_left; lra).
  rewrite power_fin_pos by lra; rewrite Rpower_1 by lra.
  rewrite power_zero_pos by lra.
  rewrite !nanmean_two.
  replace (1 / 1) with 1 by lra.
  rewrite power_fin_pos by lra; rewrite Rpower_1 by lra.
  rewrite div_fin by lra.
  do 3 f_equal; lra.
Qed.

Lemma kappa_converted_test_value :
  kappa (pct_to_log_return pct_test_data) (Fin 0) 1 "log"
  = Return (Scalar (Fin (- 1))).
Proof.
  pose proof ln_half_bound as Hln.
  rewrite pct_test_data_converted.
  unfold kappa.
  rewrite validate_valid by reflexivity; py_step.
  cbn [String.eqb Ascii.eqb Bool.eqb].
  rewrite minus_zero.
  rewrite truediv_one_over by lia; py_step.
  unfold LPM, np_nanmean, clip_min.
  cbn [is_pandas cmap reduce map rmap rlift2
       F64.sub F64.neg F64.add F64.maximum].
  replace (Rmax (0 + - ln (1 / 2)) 0) with (- ln (1 / 2))
    by (rewrite Rmax_left; lra).
  replace (Rmax (0 + - 0) 0) with 0 by (rewrite Rmax_left; lra).
  rewrite power_fin_pos by lra; rewrite Rpower_1 by lra.
  rewrite power_zero_pos by lra.
  rewrite !nanmean_two.
  replace (1 / 1) with 1 by lra.
  rewrite power_fin_pos by lra; rewrite Rpower_1 by lra.
  rewrite div_fin by lra.
  do 3 f_equal; field; lra.
Qed.

(** The other ratios under ['pct']: [sortino], [sharpe_iid] and
    [sortino_iid] do work on the converted values throughout. *)
Lemma sortino_pct_on_converted (c : container) (t f : f64) :
  sortino c t f "pct" = sortino (pct_to_log_return c) t f "log".
Proof. reflexivity. Qed.

Lemma pct_to_log_return_is_pandas (c : container) :
  is_pandas (pct_to_log_return c) = is_pandas c.
Proof. destruct c; reflexivity. Qed.

Lemma minus_is_pandas (c : container) (b : f64) :
  is_pandas (minus c b) = is_pandas c.
Proof. destruct c; reflexivity. Qed.

Lemma sharpe_iid_pct_on_converted (c : container) (b f : f64) :
  sharpe_iid c b f "pct"
  = sharpe_iid (pct_to_log_return (minus c b)) (Fin 0) f "log".
Proof.
  unfold sharpe_iid.
  rewrite !validate_valid by reflexivity; py_step.
  cbn [String.eqb Ascii.eqb Bool.eqb].
  rewrite minus_zero, pct_to_log_return_is_pandas, minus_is_pandas.
  reflexivity.
Qed.

Lemma sortino_iid_pct_on_converted (c : container) (b f : f64) :
  is_pandas c = true ->
  sortino_iid c b f "pct"
  = sortino_iid (pct_to_log_return (minus c b)) (Fin 0) f "log".
Proof.
  intro H; unfold sortino_iid.
  rewrite !validate_valid by reflexivity; py_step.
  cbn [String.eqb Ascii.eqb Bool.eqb].
  rewrite minus_zero.
  destruct c as [xs | xs | cols]; [discriminate | |]; reflexivity.
Qed.

(** C2 fails on the code for [kappa] (and so for [omega], which is
    [1 + kappa]).  With ['pct'] the mean is taken of the converted
    excess returns, but the lower partial moment in the denominator is
    computed from the percentage returns as they came in.  On the
    returns [-1/2, 0] with target 0 and moment 1 the function returns
    [(ln(1/2) / 2) / (1/4) = 2 ln(1/2)]; carried out on the converted
    values throughout, the computation gives
    [(ln(1/2) / 2) / (- ln(1/2) / 2) = -1]. *)
Theorem kappa_pct_moment_of_raw_returns :
  kappa pct_test_data (Fin 0) 1 "pct" = Return (Scalar (Fin (2 * ln (1 / 2))))
  /\ kappa (pct_to_log_return pct_test_data) (Fin 0) 1 "log"
     = Return (Scalar (Fin (- 1)))
  /\ omega pct_test_data (Fin 0) "pct"
     = Return (Scalar (Fin (1 + 2 * ln (1 / 2))))
  /\ omega (pct_to_log_return pct_test_data) (Fin 0) "log"
     = Return (Scalar (Fin (1 + - 1)))
  /\ 2 * ln (1 / 2) <> - 1.
Proof.
  pose proof ln_half_bound as Hln.
  split; [exact kappa_pct_test_value |].
  split; [exact kappa_converted_test_value |].
  split; [unfold omega; rewrite kappa_pct_test_value; reflexivity |].
  split; [unfold omega; rewrite kappa_converted_test_value; reflexivity |].
  lra.
Qed.

(** ** The repository's tests, replayed on the embedding *)

(** A list of finite values as the image of a list of reals. *)
Ltac reals_of l :=
  lazymatch l with
  | nil => constr:(@nil R)
  | Fin ?x :: ?t => let r := reals_of t in constr:(x :: r)
  end.

Ltac nanmean_of_fins :=
  repeat match goal with
         | |- context [F64.nanmean ?l] =>
             let rs := reals_of l in
             change l with (map Fin rs); rewrite (nanmean_fins rs)
         end.

Ltac eval_rmax :=
  repeat match goal with
         | |- context [Rmax ?a ?b] =>
             first [rewrite (Rmax_left a b) by lra
                   | rewrite (Rmax_right a b) by lra]
         end.

Lemma power_one (x : R) : 0 <= x -> F64.power (Fin x) (Fin 1) = Fin x.
Proof.
  intro H; destruct (Req_dec_T x 0) as [-> | Hx].
  - apply power_zero_pos; lra.
  - rewrite power_fin_pos by lra. rewrite Rpower_1 by lra. reflexivity.
Qed.

(** [test_omega]: the expected 0.463901689 is 302/651. *)
Lemma omega_test :
  omega (NdArray omega_test_data) (Fin (1 / 100)) "log"
  = Return (Scalar (Fin (302 / 651))).
Proof.
  unfold omega, kappa.
  rewrite validate_valid by reflexivity; py_step.
  cbn [String.eqb Ascii.eqb Bool.eqb].
  rewrite truediv_one_over by lia; py_step.
  unfold LPM, np_nanmean, minus, clip_min, omega_test_data.
  cbn [is_pandas cmap reduce map rmap rlift2
       F64.sub F64.neg F64.add F64.maximum].
  eval_rmax.
  rewrite !power_one by lra.
  nanmean_of_fins.
  cbn [length fold_right].
  replace (INR 12) with 12 by (simpl; lra).
  rewrite !div_fin by lra.
  replace (1 / 1) with 1 by lra.
  rewrite power_one by lra.
  rewrite div_fin by lra.
  cbn [F64.add]. do 3 f_equal. field.
Qed.

Lemma power_two (x : R) : 0 <= x -> F64.power (Fin x) (Fin 2) = Fin (x * x).
Proof.
  intro H; destruct (Req_dec_T x 0) as [-> | Hx].
  - rewrite power_zero_pos by lra. f_equal; lra.
  - rewrite power_fin_pos by lra. f_equal.
    replace 2 with (INR 2) by (simpl; lra).
    rewrite Rpower_pow by lra. simpl; lra.
Qed.

(** [test_sortino_iid]: 4.417261. *)
Lemma sortino_test :
  exists v,
    sortino (NdArray sortino_test_data) (Fin 0) (Fin 1) "log"
    = Return (Scalar (Fin v))
    /\ 4417260 / 1000000 < v < 4417262 / 1000000.
Proof.
  unfold sortino.
  rewrite validate_valid by reflexivity; py_step.
  cbn [String.eqb Ascii.eqb Bool.eqb].
  unfold LPM, np_nanmean, minus, clip_min, sortino_test_data.
  cbn [is_pandas cmap reduce map rmap rlift2
       F64.sub F64.neg F64.add F64.maximum].
  eval_rmax.
  rewrite !power_two by lra.
  nanmean_of_fins.
  cbn [length fold_right].
  replace (INR 8) with 8 by (simpl; lra).
  rewrite !div_fin by lra.
  match goal with
  | |- context [F64.sqrt (Fin ?e)] => replace e with (41 / 80000) by field
  end.
  match goal with
  | |- context [F64.div (Fin ?e) _] => replace e with (1 / 10) by field
  end.
  rewrite sqrt_fin by lra.
  assert (Hs : 0 < sqrt (41 / 80000)) by (apply sqrt_lt_R0; lra).
  assert (Hsq : sqrt (41 / 80000) * sqrt (41 / 80000) = 41 / 80000)
    by (apply sqrt_sqrt; lra).
  rewrite div_fin by lra.
  cbn [F64.mul frame].
  eexists; split; [reflexivity |].
  set (s := sqrt (41 / 80000)) in *.
  assert (Hlo : 100000 / 4417262 < s) by nra.
  assert (Hhi : s < 100000 / 4417260) by nra.
  assert (Hr : 0 < / s) by (apply Rinv_0_lt_compat; exact Hs).
  assert (Hrs : / s * s = 1) by (apply Rinv_l; lra).
  replace (1 / 10 / s * 1) with (/ s / 10) by (field; lra).
  split; nra.
Qed.

(** [test_sharpe_iid], log returns: 0.834364. *)
Lemma sharpe_iid_test :
  exists v,
    sharpe_iid (NdArray sharpe_test_data) (Fin (5 / 100)) (Fin 1) "log"
    = Return (Scalar (Fin v))
    /\ 834363 / 1000000 < v < 834365 / 1000000.
Proof.
  unfold sharpe_iid.
  rewrite validate_valid by reflexivity; py_step.
  cbn [String.eqb Ascii.eqb Bool.eqb is_pandas].
  unfold np_nanmean, np_nanstd, minus, sharpe_test_data.
  cbn [cmap reduce map rmap rlift2 F64.sub F64.neg F64.add].
  unfold F64.nanstd1, F64.std1, F64.nanmean, F64.dropna.
  cbn [filter F64.notnan F64.isnan negb length Nat.leb].
  unfold F64.mean, F64.count.
  cbn [length F64.sum fold_right F64.add].
  replace (INR 12) with 12 by (simpl; lra).
  rewrite !div_fin by lra.
  cbn [map F64.sub F64.neg F64.add F64.mul F64.sum fold_right].
  rewrite div_fin by lra.
  match goal with
  | |- context [F64.sqrt (Fin ?e)] =>
      replace e with (3791963 / 132000000) by field
  end.
  match goal with
  | |- context [F64.div (Fin ?e) _] => replace e with (1697 / 12000) by field
  end.
  rewrite sqrt_fin by lra.
  set (V := 3791963 / 132000000).
  assert (Hs : 0 < sqrt V) by (apply sqrt_lt_R0; unfold V; lra).
  assert (Hsq : sqrt V * sqrt V = V) by (apply sqrt_sqrt; unfold V; lra).
  rewrite div_fin by lra.
  cbn [frame].
  eexists; split; [reflexivity |].
  set (s := sqrt V) in *. unfold V in Hsq.
  assert (Hr : 0 < / s) by (apply Rinv_0_lt_compat; exact Hs).
  assert (Hrs : / s * s = 1) by (apply Rinv_l; lra).
  assert (Hlo : 1697 / 12000 * (1000000 / 834365) < s) by nra.
  assert (Hhi : s < 1697 / 12000 * (1000000 / 834363)) by nra.
  replace (1697 / 12000 / s) with (1697 / 12000 * / s) by (field; lra).
  split; nra.
Qed.

(** [test_annualized_log_return]: 0.2271687... *)
Lemma annualized_log_return_test :
  exists v,
    annualized_log_return
      (PyNum (Fin (51470826725926955 / 100000000000000000)))
      (PyNum (Fin 827)) (PyNum (Fin 365))
    = Return (PyNum (Fin v))
    /\ 2271687 / 10000000 < v < 2271688 / 10000000.
Proof.
  unfold annualized_log_return.
  rewrite truediv_py_fin by lra; py_step.
  rewrite truediv_py_fin by lra; py_step.
  eexists; split; [reflexivity |].
  replace (51470826725926955 / 100000000000000000 / (827 / 365))
    with (51470826725926955 / 100000000000000000 * 365 / 827) by (field; lra).
  lra.
Qed.

(** ** The lower partial moment in binary64 (C4) *)

Lemma LPM_rounded_exact (returns : container) (t : f64) (n : Z) :
  LPM_rounded (fun v => v) returns t n = LPM returns t n.
Proof. reflexivity. Qed.

Lemma tiny_pos : 0 < F64.tiny.
Proof. unfold F64.tiny; apply Rinv_0_lt_compat, pow_lt; lra. Qed.

Lemma tiny_lt_min_normal : F64.tiny < F64.min_normal.
Proof.
  unfold F64.tiny, F64.min_normal.
  apply Rinv_lt_contravar.
  - apply Rmult_lt_0_compat; apply pow_lt; lra.
  - apply Rlt_pow; [lra | apply Nat.ltb_lt; reflexivity].
Qed.

Lemma underflow_zero : F64.underflow (Fin 0) = Fin 0.
Proof.
  unfold F64.underflow; destruct (F64.Rleb (Rabs 0) F64.tiny); reflexivity.
Qed.

Lemma underflow_flushes (z : R) :
  0 <= z <= F64.tiny -> F64.underflow (Fin z) = Fin 0.
Proof.
  intro H; unfold F64.underflow.
  rewrite Rabs_pos_eq by lra; rewrite Rleb_true by lra; reflexivity.
Qed.

Lemma underflow_keeps (z : R) :
  F64.tiny < z -> F64.underflow (Fin z) = Fin z.
Proof.
  intro H; pose proof tiny_pos; unfold F64.underflow.
  rewrite Rabs_pos_eq by lra; rewrite Rleb_false by assumption; reflexivity.
Qed.

Lemma underflow_notnan (v : f64) :
  F64.notnan (F64.underflow v) = F64.notnan v.
Proof.
  destruct v as [z | | |]; try reflexivity.
  unfold F64.underflow; destruct (F64.Rleb (Rabs z) F64.tiny); reflexivity.
Qed.

Lemma underflow_nonneg (v : f64) : nonneg v -> nonneg (F64.underflow v).
Proof.
  intros [-> | [y [-> Hy]]]; [left; reflexivity | right].
  unfold F64.underflow; destruct (F64.Rleb (Rabs y) F64.tiny);
    eexists; (split; [reflexivity | lra]).
Qed.

Lemma lpm_entry_shortfall (t x : R) (n : Z) :
  (1 <= n)%Z -> x < t ->
  lpm_entry t n (Fin x) = Fin (Rpower (t - x) (IZR n)).
Proof.
  intros H Hx; pose proof (IZR_pos n H) as Hn.
  unfold lpm_entry; cbn [F64.sub F64.neg F64.add F64.maximum].
  replace (Rmax (t + - x) 0) with (t - x)
    by (unfold Rmax; destruct (Rle_dec (t + - x) 0); lra).
  apply power_fin_pos; lra.
Qed.

Lemma lpm_entry_ninf (t : R) (n : Z) :
  (1 <= n)%Z -> lpm_entry t n NInf = PInf.
Proof.
  intro H; pose proof (IZR_pos n H) as Hn.
  unfold lpm_entry; cbn [F64.sub F64.neg F64.add F64.maximum F64.power].
  rewrite Reqb_false by lra; rewrite Rltb_true by assumption; reflexivity.
Qed.

Lemma lpm_entry_nonneg (t : R) (n : Z) (a : f64) :
  (1 <= n)%Z -> F64.notnan a = true -> nonneg (lpm_entry t n a).
Proof.
  intros Hn Ha.
  destruct (F64.ltb a (Fin t)) eqn:E.
  - destruct (lpm_entry_below t n a Hn E) as [-> | [y [-> Hy]]];
      [left; reflexivity | right; exists y; split; [reflexivity | lra]].
  - rewrite (lpm_entry_not_below t n a Hn Ha E).
    right; exists 0; split; [reflexivity | lra].
Qed.

Lemma dropna_lpm_entries_binary64 (t : R) (n : Z) (xs : list f64) :
  (1 <= n)%Z ->
  F64.dropna (map (lpm_entry_binary64 t n) xs)
  = map (lpm_entry_binary64 t n) (F64.dropna xs).
Proof.
  intro H; unfold F64.dropna.
  induction xs as [| a xs IH]; cbn [map filter]; [reflexivity |].
  unfold lpm_entry_binary64 at 1.
  rewrite underflow_notnan, lpm_entry_notnan by assumption.
  destruct (F64.notnan a); cbn [map]; rewrite IH; reflexivity.
Qed.

Lemma sum_with_inf (zs : list f64) :
  Forall nonneg zs -> In PInf zs -> F64.sum zs = PInf.
Proof.
  induction 1 as [| z zs Hz Hzs IH]; [contradiction |].
  cbn [F64.sum fold_right]; fold (F64.sum zs).
  intros [-> | Hin].
  - destruct (proj1 (sum_nonneg zs Hzs)) as [-> | [s [-> _]]]; reflexivity.
  - rewrite (IH Hin).
    destruct Hz as [-> | [y [-> _]]]; reflexivity.
Qed.

Lemma sum_bounds_member (zs : list f64) (p : R) :
  Forall nonneg zs -> In (Fin p) zs ->
  F64.sum zs = PInf \/ exists s, F64.sum zs = Fin s /\ p <= s.
Proof.
  induction 1 as [| z zs Hz Hzs IH]; [contradiction |].
  cbn [F64.sum fold_right]; fold (F64.sum zs).
  intros [-> | Hin].
  - destruct (proj1 (sum_nonneg zs Hzs)) as [-> | [s [-> Hs]]];
      cbn [F64.add]; [left; reflexivity |].
    right; exists (p + s); split; [reflexivity | lra].
  - destruct (IH Hin) as [-> | [s [-> Hs]]],
             Hz as [-> | [y [-> Hy]]]; cbn [F64.add];
      try (left; reflexivity).
    right; exists (y + s); split; [reflexivity | lra].
Qed.

Lemma lpm_binary64_series (t : R) (n : Z) (xs : list f64) :
  (1 <= n)%Z -> has_observation xs ->
  lpm_binary64_guarantee t n xs
    (F64.underflow (F64.nanmean (map (lpm_entry_binary64 t n) xs))).
Proof.
  intros Hn Hobs.
  unfold F64.nanmean, F64.mean, F64.count.
  rewrite dropna_lpm_entries_binary64 by assumption.
  rewrite length_map.
  pose proof (dropna_nonempty xs Hobs) as Hlen.
  assert (Hc : 1 <= INR (length (F64.dropna xs)))
    by (change 1 with (INR 1); apply le_INR; lia).
  unfold lpm_binary64_guarantee, clear_shortfall.
  set (c := INR (length (F64.dropna xs))) in *.
  pose proof tiny_pos as Ht; pose proof tiny_lt_min_normal as Hm.
  assert (Hall : Forall nonneg (map (lpm_entry_binary64 t n) (F64.dropna xs))).
  { apply Forall_forall; intros z Hz.
    apply in_map_iff in Hz; destruct Hz as [a [<- Ha]].
    apply filter_In in Ha; destruct Ha as [_ Ha].
    apply underflow_nonneg, lpm_entry_nonneg; assumption. }
  destruct (sum_nonneg _ Hall) as [Hsum Hzero].
  split; [| split].
  - destruct Hsum as [-> | [s [-> Hs]]].
    + cbn [F64.div]; rewrite Rltb_false by lra; reflexivity.
    + rewrite div_fin by lra.
      assert (0 <= s / c)
        by (apply Rmult_le_pos; [assumption |];
            left; apply Rinv_0_lt_compat; lra).
      unfold F64.underflow; destruct (F64.Rleb (Rabs (s / c)) F64.tiny);
        cbn [F64.leb]; apply Rleb_true; lra.
  - intro Hnb.
    assert (Hz : F64.sum (map (lpm_entry_binary64 t n) (F64.dropna xs)) = Fin 0).
    { apply Hzero, Forall_forall; intros z Hz.
      apply in_map_iff in Hz; destruct Hz as [a [<- Ha]].
      apply filter_In in Ha; destruct Ha as [Ha Hnn].
      unfold lpm_entry_binary64.
      rewrite (lpm_entry_not_below t n a Hn Hnn (Hnb a Ha)).
      symmetry; apply underflow_zero. }
    rewrite Hz, div_fin by lra.
    apply underflow_flushes; unfold Rdiv; rewrite Rmult_0_l; lra.
  - intros _ [a [Ha [-> | [x [-> [Hx Hp]]]]]].
    + assert (Hin : In PInf (map (lpm_entry_binary64 t n) (F64.dropna xs))).
      { apply in_map_iff; exists NInf; split.
        - unfold lpm_entry_binary64; rewrite lpm_entry_ninf by assumption.
          reflexivity.
        - apply filter_In; split; [exact Ha | reflexivity]. }
      rewrite (sum_with_inf _ Hall Hin).
      cbn [F64.div]; rewrite Rltb_false by lra; discriminate.
    + assert (Hin : In (Fin (Rpower (t - x) (IZR n)))
                       (map (lpm_entry_binary64 t n) (F64.dropna xs))).
      { apply in_map_iff; exists (Fin x); split.
        - unfold lpm_entry_binary64; rewrite lpm_entry_shortfall by assumption.
          apply underflow_keeps; nra.
        - apply filter_In; split; [exact Ha | reflexivity]. }
      destruct (sum_bounds_member _ _ Hall Hin) as [-> | [s [-> Hs]]].
      * cbn [F64.div]; rewrite Rltb_false by lra; discriminate.
      * rewrite div_fin by lra.
        assert (F64.min_normal <= s / c).
        { apply Rmult_le_reg_r with c; [lra |].
          unfold Rdiv; rewrite Rmult_assoc, Rinv_l by lra; lra. }
        rewrite underflow_keeps by lra.
        intro E; injection E as E; lra.
Qed.

(** C4, as the program has it: for a series with an observation that
    is not missing, a finite target and a moment order [n >= 1], [LPM]
    is zero or more; it is zero when no observation is below the
    target; and, for [n <= 1000], it is not zero when some observation
    is [-inf] or is below the target with a shortfall whose [n]-th
    power is at least the smallest normal binary64 number times the
    number of observations that are not missing.  For a DataFrame
    this holds column by column.  (A smaller shortfall can be lost to
    underflow, see [LPM_underflows_to_zero].) *)
Theorem LPM_binary64_nonneg_and_zero (returns : container) (t : R) (n : Z) :
  (1 <= n)%Z ->
  every_column has_observation returns ->
  match returns, LPM_binary64 returns (Fin t) n with
  | NdArray xs, Scalar v | PdSeries xs, Scalar v =>
      lpm_binary64_guarantee t n xs v
  | PdDataFrame cols, Labeled vs =>
      Forall2 (fun lc lv => fst lv = fst lc
                            /\ lpm_binary64_guarantee t n (snd lc) (snd lv))
              cols vs
  | _, _ => False
  end.
Proof.
  intros Hn Hobs.
  destruct returns as [xs | xs | cols];
    unfold LPM_binary64, LPM_rounded, maxzero, clip_min;
    cbn [is_pandas cmap reduce every_column] in *.
  - rewrite !map_map; apply (lpm_binary64_series t n xs Hn Hobs).
  - rewrite !map_map; apply (lpm_binary64_series t n xs Hn Hobs).
  - induction Hobs as [| [l xs] cs Hxs _ IH]; cbn [map fst snd];
      constructor; [| exact IH].
    cbn [fst snd] in *; split; [reflexivity |].
    rewrite !map_map; apply (lpm_binary64_series t n xs Hn Hxs).
Qed.

Lemma LPM_binary64_nonneg_and_zero_witness :
  lpm_binary64_guarantee 0 2 sortino_test_data
    (F64.underflow (F64.nanmean (map (lpm_entry_binary64 0 2)
                                     sortino_test_data))).
Proof.
  exact (LPM_binary64_nonneg_and_zero (NdArray sortino_test_data) 0 2
           ltac:(lia) eq_refl).
Defined.

(** On the data of the repository's test the shortfalls are clear, and
    the second moment about zero is not zero. *)
Lemma LPM_binary64_test_not_zero :
  F64.underflow (F64.nanmean (map (lpm_entry_binary64 0 2) sortino_test_data))
  <> Fin 0.
Proof.
  apply (proj2 (proj2 (lpm_binary64_series 0 2 sortino_test_data
                         ltac:(lia) eq_refl))); [lia |].
  exists (Fin (- 5 / 100)); split; [do 3 right; left; reflexivity |].
  right; exists (- 5 / 100); split; [reflexivity | split; [lra |]].
  assert (Hm : F64.min_normal <= / 4096).
  { unfold F64.min_normal.
    replace 4096 with (2 ^ 12) by (simpl; lra).
    apply Rinv_le_contravar; [apply pow_lt; lra |].
    apply Rle_pow; [lra | lia]. }
  replace (IZR 2) with (INR 2) by (simpl; lra).
  rewrite Rpower_pow by lra.
  change (length (F64.dropna sortino_test_data)) with 8%nat.
  simpl INR; simpl pow; lra.
Qed.

Lemma square_underflows : / 10 ^ 200 * / 10 ^ 200 <= F64.tiny.
Proof.
  unfold F64.tiny.
  rewrite <- Rinv_mult.
  apply Rinv_le_contravar; [apply pow_lt; lra |].
  rewrite <- pow_add.
  change 2 with (IZR 2); change 10 with (IZR 10).
  rewrite !pow_IZR.
  apply IZR_le, Z.leb_le; vm_compute; reflexivity.
Qed.

(** C4 as stated fails: the moment of order two of [-1e-200, 1.]
    about the target zero is zero, with an observation below the
    target.  The square of the shortfall, [1e-400], is less than
    binary64 holds, and [np.power] returns zero for it. *)
Lemma LPM_underflows_to_zero :
  LPM_binary64 (NdArray underflow_data) (Fin 0) 2 = Scalar (Fin 0)
  /\ ~ lpm_guarantee 0 underflow_data (Fin 0).
Proof.
  assert (Hp : 0 < / 10 ^ 200) by (apply Rinv_0_lt_compat, pow_lt; lra).
  split.
  - unfold LPM_binary64, LPM_rounded, underflow_data, clip_min.
    cbn [is_pandas cmap reduce map].
    change (F64.power (F64.maximum (F64.sub (Fin 0) (Fin (- / 10 ^ 200)))
                                   (Fin 0)) (Fin (IZR 2)))
      with (lpm_entry 0 2 (Fin (- / 10 ^ 200))).
    change (F64.power (F64.maximum (F64.sub (Fin 0) (Fin 1)) (Fin 0))
                      (Fin (IZR 2)))
      with (lpm_entry 0 2 (Fin 1)).
    rewrite lpm_entry_shortfall by (lia || lra).
    rewrite (lpm_entry_not_below 0 2 (Fin 1))
      by (lia || reflexivity || (cbn [F64.ltb]; apply Rltb_false; lra)).
    replace (Rpower (0 - - / 10 ^ 200) 2) with (/ 10 ^ 200 * / 10 ^ 200).
    + rewrite underflow_flushes
        by (split; [nra | exact square_underflows]).
      rewrite underflow_zero, nanmean_two.
      apply f_equal, underflow_flushes.
      pose proof tiny_pos; lra.
    + replace 2 with (INR 2) by (simpl; lra).
      rewrite Rpower_pow by lra. simpl; lra.
  - intros [_ [H _]].
    specialize (H eq_refl (Fin (- / 10 ^ 200)) (or_introl eq_refl)).
    cbn [F64.ltb] in H.
    rewrite Rltb_true in H by lra; discriminate.
Qed.

(** * Further properties of the module *)

(** ** The return transforms *)

Lemma forall_map_eq {A} (f : A -> A) (P : A -> Prop) (xs : list A) :
  (forall x, P x -> f x = x) -> Forall P xs -> map f xs = xs.
Proof.
  intros Hf Hall; induction Hall as [| x xs Hx _ IH]; cbn [map];
    [reflexivity |].
  rewrite (Hf x Hx), IH; reflexivity.
Qed.

Lemma back_to_log_entry (prepare : f64 -> f64) (v : f64) :
  (forall x, prepare (Fin x) = Fin x) ->
  finite v ->
  F64.log (F64.add (Fin 1) (prepare (F64.sub (F64.exp v) (Fin 1)))) = v.
Proof.
  intros Hprep [x ->].
  cbn [F64.exp F64.sub F64.neg F64.add].
  rewrite Hprep; cbn [F64.add].
  pose proof (exp_pos x) as Hexp.
  rewrite log_fin by lra.
  f_equal; transitivity (ln (exp x)); [f_equal; lra | apply ln_exp].
Qed.

(** X1: on log returns that are all present and finite, going to
    percentage returns and back gives the series again. *)
Theorem pct_to_log_of_log_to_pct (l : container) :
  every_entry finite l ->
  pct_to_log_return (log_to_pct_return l) = l.
Proof.
  intro H.
  destruct l as [xs | xs | cols];
    unfold log_to_pct_return, pct_to_log_return;
    cbn [is_pandas cmap every_entry] in *.
  - f_equal; rewrite !map_map.
    apply (forall_map_eq _ finite); [| assumption].
    intros v Hv; apply (back_to_log_entry F64.nan_to_num v); auto.
  - f_equal; rewrite !map_map.
    apply (forall_map_eq _ finite); [| assumption].
    intros v Hv; apply (back_to_log_entry (F64.fillna (Fin 0)) v); auto.
  - f_equal; rewrite map_map; cbn [fst snd].
    induction H as [| [lab xs] cs Hxs _ IH]; cbn [map fst snd];
      [reflexivity |].
    rewrite IH; f_equal; f_equal.
    rewrite !map_map.
    apply (forall_map_eq _ finite); [| exact Hxs].
    intros v Hv; apply (back_to_log_entry (F64.fillna (Fin 0)) v); auto.
Qed.

Lemma pct_to_log_of_log_to_pct_witness :
  pct_to_log_return (log_to_pct_return (PdSeries [Fin 0; Fin (- 3)]))
  = PdSeries [Fin 0; Fin (- 3)].
Proof.
  apply pct_to_log_of_log_to_pct.
  cbn [every_entry]; repeat constructor; eexists; reflexivity.
Defined.

Lemma max_float_pos : 0 < F64.max_float.
Proof.
  unfold F64.max_float.
  assert (H52 : 1 <= 2 ^ 52) by (apply pow_R1_Rle; lra).
  assert (Hinv : / 2 ^ 52 <= 1).
  { rewrite <- Rinv_1. apply Rinv_le_contravar; lra. }
  apply Rmult_lt_0_compat; [lra | apply pow_lt; lra].
Qed.

Lemma log_notnan (x : R) : 0 <= x -> F64.notnan (F64.log (Fin x)) = true.
Proof.
  intro H; unfold F64.log.
  destruct (Rlt_dec 0 x) as [L | L].
  - rewrite Rltb_true by assumption; reflexivity.
  - rewrite Rltb_false by lra. rewrite Reqb_true by lra. reflexivity.
Qed.

Lemma filled_entry_array (v : f64) :
  fillable v ->
  F64.notnan (F64.log (F64.add (Fin 1) (F64.nan_to_num v))) = true.
Proof.
  pose proof max_float_pos as Hmax.
  intros [-> | [-> | [x [-> Hx]]]]; cbn [F64.nan_to_num F64.add];
    apply log_notnan; lra.
Qed.

Lemma filled_entry_pandas (v : f64) :
  fillable v ->
  F64.notnan (F64.log (F64.add (Fin 1) (F64.fillna (Fin 0) v))) = true.
Proof.
  intros [-> | [-> | [x [-> Hx]]]]; cbn [F64.fillna F64.add F64.log];
    try reflexivity; apply log_notnan; lra.
Qed.

(** X2: [pct_to_log_return] fills the gaps.  When every entry is
    missing, [+inf], or a finite return of -100% or more, no entry of
    the result is missing: a missing return has become the log return
    zero. *)
Theorem pct_to_log_return_fills_gaps (c : container) :
  every_entry fillable c ->
  every_entry (fun v => F64.notnan v = true) (pct_to_log_return c).
Proof.
  intro H.
  destruct c as [xs | xs | cols]; unfold pct_to_log_return;
    cbn [is_pandas cmap every_entry] in *.
  - rewrite !map_map. apply Forall_map.
    eapply Forall_impl; [| exact H]; apply filled_entry_array.
  - rewrite !map_map. apply Forall_map.
    eapply Forall_impl; [| exact H]; apply filled_entry_pandas.
  - rewrite !map_map. apply Forall_map; cbn [fst snd].
    eapply Forall_impl; [| exact H]; cbn beta.
    intros [lab xs] Hxs; cbn [snd] in *.
    rewrite !map_map. apply Forall_map.
    eapply Forall_impl; [| exact Hxs]; apply filled_entry_pandas.
Qed.

Lemma pct_to_log_return_fills_gaps_witness :
  every_entry (fun v => F64.notnan v = true)
    (pct_to_log_return (NdArray [NaN; Fin (1 / 10); PInf])).
Proof.
  apply pct_to_log_return_fills_gaps.
  cbn [every_entry].
  apply Forall_cons; [left; reflexivity |].
  apply Forall_cons; [right; right; eexists; split; [reflexivity | lra] |].
  apply Forall_cons; [right; left; reflexivity | apply Forall_nil].
Defined.

(** ** The geometric mean return *)

Lemma exp_sum_ln (rs : list R) :
  Forall (fun r => 0 < 1 + r) rs ->
  exp (fold_right Rplus 0 (map (fun r => ln (1 + r)) rs))
  = product (map (fun r => 1 + r) rs).
Proof.
  unfold product; induction 1 as [| r rs Hr _ IH]; cbn [map fold_right].
  - apply exp_0.
  - rewrite exp_plus, IH, exp_ln by assumption; reflexivity.
Qed.

Lemma exp_pow_nat (y : R) (n : nat) : exp y ^ n = exp (INR n * y).
Proof.
  rewrite <- Rpower_pow by apply exp_pos.
  unfold Rpower; rewrite ln_exp; reflexivity.
Qed.

Lemma gmean_of_growth (prepare : f64 -> f64) (rs : list R) :
  (forall x, prepare (Fin x) = Fin x) ->
  Forall (fun r => 0 < 1 + r) rs -> rs <> [] ->
  F64.sub (gmean (map (F64.add (Fin 1)) (map prepare (map Fin rs)))) (Fin 1)
  = Fin (exp (fold_right Rplus 0 (map (fun r => ln (1 + r)) rs)
              / INR (length rs)) + - 1).
Proof.
  intros Hprep Hall Hne.
  assert (E : map F64.log (map (F64.add (Fin 1)) (map prepare (map Fin rs)))
              = map Fin (map (fun r => ln (1 + r)) rs)).
  { clear Hne; rewrite !map_map.
    induction Hall as [| r rs' Hr _ IH]; cbn [map]; [reflexivity |].
    rewrite IH; f_equal.
    rewrite Hprep; cbn [F64.add]; apply log_fin; assumption. }
  unfold gmean, F64.mean, F64.count.
  rewrite E, sum_fins, !length_map.
  rewrite div_fin
    by (apply not_0_INR; destruct rs; [contradiction | discriminate]).
  reflexivity.
Qed.

(** X3: the geometric mean return compounds to the total growth.  For
    a non-empty array or Series of finite returns above -100%,
    [returns_gmean] is a finite number [g] with
    [(1 + g)^n = (1 + r_1) * ... * (1 + r_n)]. *)
Theorem returns_gmean_compounds (c : container) (rs : list R) :
  c = NdArray (map Fin rs) \/ c = PdSeries (map Fin rs) ->
  Forall (fun r => 0 < 1 + r) rs ->
  rs <> [] ->
  exists g,
    returns_gmean c = NpScalar (Fin g)
    /\ (1 + g) ^ length rs = product (map (fun r => 1 + r) rs).
Proof.
  intros Hc Hall Hne.
  set (S := fold_right Rplus 0 (map (fun r => ln (1 + r)) rs)).
  exists (exp (S / INR (length rs)) + - 1).
  assert (Hn : INR (length rs) <> 0)
    by (apply not_0_INR; destruct rs; [contradiction | discriminate]).
  split.
  - destruct Hc as [-> | ->]; unfold returns_gmean;
      cbn [is_pandas cmap np_reduce np_map]; f_equal.
    + apply (gmean_of_growth F64.nan_to_num); auto.
    + apply (gmean_of_growth (F64.fillna (Fin 0))); auto.
  - replace (1 + (exp (S / INR (length rs)) + - 1))
      with (exp (S / INR (length rs))) by lra.
    rewrite exp_pow_nat.
    replace (INR (length rs) * (S / INR (length rs))) with S
      by (field; assumption).
    apply exp_sum_ln; assumption.
Qed.

Lemma returns_gmean_compounds_witness :
  exists g,
    returns_gmean (NdArray (map Fin [1 / 10; - 1 / 5])) = NpScalar (Fin g)
    /\ (1 + g) ^ 2 = product (map (fun r => 1 + r) [1 / 10; - 1 / 5]).
Proof.
  apply (returns_gmean_compounds _ [1 / 10; - 1 / 5]).
  - left; reflexivity.
  - repeat (apply Forall_cons; [lra |]); apply Forall_nil.
  - discriminate.
Defined.

(** The logarithm of one plus a filled return: finite, or [-inf] at a
    total loss. *)
Lemma log_growth_cases (prepare : f64 -> f64) (v : f64) :
  (forall x, prepare (Fin x) = Fin x) -> prepare NaN = Fin 0 ->
  loss_bounded v ->
  (exists y, F64.log (F64.add (Fin 1) (prepare v)) = Fin y)
  \/ F64.log (F64.add (Fin 1) (prepare v)) = NInf.
Proof.
  intros Hfin Hnan [-> | [x [-> Hx]]].
  - rewrite Hnan; cbn [F64.add]. left; exists (ln (1 + 0)).
    apply log_fin; lra.
  - rewrite Hfin; cbn [F64.add].
    destruct (Rlt_dec 0 (1 + x)) as [L | L].
    + left; exists (ln (1 + x)); apply log_fin; assumption.
    + right; unfold F64.log.
      rewrite Rltb_false by lra. rewrite Reqb_true by lra. reflexivity.
Qed.

Lemma sum_with_neg_inf (zs : list f64) :
  Forall (fun z => (exists y, z = Fin y) \/ z = NInf) zs ->
  In NInf zs ->
  F64.sum zs = NInf.
Proof.
  induction 1 as [| z zs Hz Hall IH]; [contradiction |].
  intros [-> | Hin]; cbn [F64.sum fold_right]; fold (F64.sum zs).
  - assert (Hs : (exists y, F64.sum zs = Fin y) \/ F64.sum zs = NInf).
    { clear IH. induction Hall as [| w ws Hw _ IHw];
        cbn [F64.sum fold_right]; [left; eexists; reflexivity |].
      fold (F64.sum ws).
      destruct Hw as [[y ->] | ->], IHw as [[s ->] | ->]; cbn [F64.add];
        eauto. }
    destruct Hs as [[s ->] | ->]; reflexivity.
  - rewrite (IH Hin). destruct Hz as [[y ->] | ->]; reflexivity.
Qed.

(** X4: one total loss wipes out the geometric mean.  If some return
    of an array or Series is -100% and every other one is missing or
    finite and no worse, [returns_gmean] is -100%. *)
Theorem returns_gmean_total_loss (c : container) (xs : list f64) (x : R) :
  c = NdArray xs \/ c = PdSeries xs ->
  Forall loss_bounded xs ->
  In (Fin x) xs -> 1 + x = 0 ->
  returns_gmean c = NpScalar (Fin (- 1)).
Proof.
  intros Hc Hall Hin Hx.
  assert (G : forall prepare,
             (forall y, prepare (Fin y) = Fin y) -> prepare NaN = Fin 0 ->
             F64.sub (gmean (map (F64.add (Fin 1)) (map prepare xs))) (Fin 1)
             = Fin (- 1)).
  { intros prepare Hfin Hnan.
    set (zs := map F64.log (map (F64.add (Fin 1)) (map prepare xs))).
    assert (Hzs : Forall (fun z => (exists y, z = Fin y) \/ z = NInf) zs).
    { subst zs; rewrite !map_map; apply Forall_map.
      eapply Forall_impl; [| exact Hall].
      intros v Hv; apply (log_growth_cases prepare v Hfin Hnan Hv). }
    assert (Hneg : In NInf zs).
    { subst zs; rewrite !map_map.
      apply in_map_iff; exists (Fin x); split; [| assumption].
      rewrite Hfin; cbn [F64.add]; unfold F64.log.
      rewrite Rltb_false by lra. rewrite Reqb_true by lra. reflexivity. }
    unfold gmean, F64.mean, F64.count; fold zs.
    rewrite (sum_with_neg_inf zs Hzs Hneg).
    cbn [F64.div]. rewrite Rltb_false by apply pos_INR.
    cbn [F64.exp F64.sub F64.neg F64.add]; f_equal; lra. }
  destruct Hc as [-> | ->]; unfold returns_gmean;
    cbn [is_pandas cmap np_reduce np_map]; f_equal; apply G; reflexivity.
Qed.

Lemma returns_gmean_total_loss_witness :
  returns_gmean (PdSeries [Fin (1 / 2); NaN; Fin (- 1)]) = NpScalar (Fin (- 1)).
Proof.
  apply (returns_gmean_total_loss _ [Fin (1 / 2); NaN; Fin (- 1)] (- 1)).
  - right; reflexivity.
  - apply Forall_cons; [right; eexists; split; [reflexivity | lra] |].
    apply Forall_cons; [left; reflexivity |].
    apply Forall_cons; [right; eexists; split; [reflexivity | lra] |].
    apply Forall_nil.
  - right; right; left; reflexivity.
  - lra.
Defined.

(** ** Log returns from prices *)

Lemma length_shift (n : Z) (xs : list f64) : length (shift n xs) = length xs.
Proof.
  unfold shift; destruct (0 <=? n)%Z;
    rewrite length_app, repeat_length;
    [rewrite length_firstn | rewrite length_skipn]; lia.
Qed.

Lemma length_zip_values (f : f64 -> f64 -> f64) (xs ys : list f64) :
  length ys = length xs -> length (zip_values f xs ys) = length xs.
Proof.
  revert ys; induction xs as [| x xs IH]; intros [| y ys] H;
    cbn [zip_values length] in *; try reflexivity; try discriminate.
  rewrite IH by lia; reflexivity.
Qed.

Lemma nth_zip_values (f : f64 -> f64 -> f64) (xs ys : list f64) (i : nat) :
  length ys = length xs -> (i < length xs)%nat ->
  nth i (zip_values f xs ys) NaN = f (nth i xs NaN) (nth i ys NaN).
Proof.
  revert ys i; induction xs as [| x xs IH]; intros [| y ys] i H Hi;
    cbn [zip_values length] in *; try lia.
  destruct i as [| i]; cbn [nth]; [reflexivity |].
  apply IH; lia.
Qed.

Lemma nth_shift_head (n : Z) (xs : list f64) (i : nat) :
  (0 <= n)%Z -> (i < Nat.min (Z.to_nat n) (length xs))%nat ->
  nth i (shift n xs) NaN = NaN.
Proof.
  intros Hn Hi; unfold shift.
  destruct (0 <=? n)%Z eqn:E; [| lia].
  rewrite app_nth1 by (rewrite repeat_length; exact Hi).
  apply nth_repeat.
Qed.

Lemma div_nan_r (a : f64) : F64.div a NaN = NaN.
Proof. destruct a; reflexivity. Qed.

Lemma fillna_notnan (v : f64) : F64.notnan (F64.fillna (Fin 0) v) = true.
Proof. destruct v; reflexivity. Qed.

(** X7: what [log_returns] gives for any Series of prices and a lag
    [n >= 0]: a Series as long as the prices, with no missing entry,
    whose first [n] entries (all of them when there are fewer than
    [n] prices) are zero. *)
Theorem log_returns_shape (xs : list f64) (n : Z) :
  (0 <= n)%Z ->
  exists ys,
    log_returns (PdSeries xs) n = Return (PdSeries ys)
    /\ length ys = length xs
    /\ Forall (fun y => F64.notnan y = true) ys
    /\ forall i, (i < Nat.min (Z.to_nat n) (length xs))%nat ->
                 nth i ys NaN = Fin 0.
Proof.
  intro Hn; unfold log_returns.
  cbn [frame cmap clift2 per_column].
  eexists; split; [reflexivity |].
  split; [| split].
  - rewrite !length_map. apply length_zip_values, length_shift.
  - rewrite map_map; apply Forall_map, Forall_forall.
    intros v _; apply fillna_notnan.
  - intros i Hi.
    assert (Hlen : (i < length xs)%nat) by lia.
    rewrite map_map.
    rewrite (nth_indep _ NaN
               (F64.fillna (Fin 0) (F64.log (F64.div NaN NaN))))
      by (rewrite length_map, length_zip_values by apply length_shift;
          exact Hlen).
    rewrite (map_nth (fun v => F64.fillna (Fin 0) (F64.log v))).
    rewrite nth_zip_values by (apply length_shift || exact Hlen).
    rewrite nth_shift_head by assumption.
    rewrite div_nan_r; reflexivity.
Qed.

Lemma log_returns_shape_witness :
  exists ys,
    log_returns (PdSeries [Fin 2; Fin (- 1); NaN]) 2 = Return (PdSeries ys)
    /\ length ys = 3%nat
    /\ Forall (fun y => F64.notnan y = true) ys
    /\ forall i, (i < 2)%nat -> nth i ys NaN = Fin 0.
Proof.
  exact (log_returns_shape [Fin 2; Fin (- 1); NaN] 2 ltac:(lia)).
Defined.

Lemma shift_one (x : f64) (xs : list f64) :
  shift 1 (x :: xs) = NaN :: firstn (length xs) (x :: xs).
Proof.
  unfold shift; cbn [Z.leb Z.compare length].
  change (Z.to_nat 1) with 1%nat.
  cbn [Nat.min repeat app Nat.sub].
  rewrite Nat.sub_0_r; reflexivity.
Qed.

Lemma log_ratios (p : R) (ps : list R) :
  0 < p -> Forall (fun q => 0 < q) ps ->
  map (F64.fillna (Fin 0))
    (map F64.log
       (zip_values F64.div (map Fin ps)
          (firstn (length ps) (map Fin (p :: ps)))))
  = map Fin (ratios_ln p ps).
Proof.
  intros Hp Hall; revert p Hp.
  induction Hall as [| q qs Hq _ IH]; intros p Hp; [reflexivity |].
  cbn [map length firstn zip_values ratios_ln].
  rewrite div_fin by lra.
  rewrite log_fin by (apply Rdiv_lt_0_compat; assumption).
  cbn [F64.fillna]; f_equal.
  apply (IH q Hq).
Qed.

Lemma log_returns_of_prices (p : R) (ps : list R) :
  0 < p -> Forall (fun q => 0 < q) ps ->
  log_returns (PdSeries (map Fin (p :: ps))) 1
  = Return (PdSeries (map Fin (0 :: ratios_ln p ps))).
Proof.
  intros Hp Hall; unfold log_returns.
  cbn [frame cmap clift2 per_column map].
  rewrite shift_one.
  cbn [zip_values map F64.div F64.log F64.fillna].
  rewrite length_map.
  pose proof (log_ratios p ps Hp Hall) as E.
  cbn [map] in E.
  rewrite E; reflexivity.
Qed.

Lemma ratios_ln_telescope (p : R) (ps : list R) (t : nat) :
  0 < p -> Forall (fun q => 0 < q) ps -> (t < length ps)%nat ->
  fold_right Rplus 0 (firstn (S t) (ratios_ln p ps)) = ln (nth t ps 1 / p).
Proof.
  intros Hp Hall; revert p Hp t.
  induction Hall as [| q qs Hq Hqs IH]; intros p Hp t Ht;
    cbn [length] in Ht; [lia |].
  cbn [ratios_ln firstn fold_right].
  destruct t as [| t]; cbn [nth].
  - destruct (ratios_ln q qs); cbn [firstn fold_right]; lra.
  - rewrite (IH q Hq t) by lia.
    assert (Hnth : 0 < nth t qs 1).
    { assert (Hin : In (nth t qs 1) qs) by (apply nth_In; lia).
      rewrite Forall_forall in Hqs; apply Hqs; assumption. }
    rewrite <- ln_mult by (apply Rdiv_lt_0_compat; assumption).
    f_equal; field; lra.
Qed.

(** X5: the cumulative log return recovers the price.  For a Series
    of positive prices and lag 1, the first price times the
    exponential of the sum of the log returns up to period [t] is the
    price at [t] (the check of the repository's [test_log_returns]). *)
Theorem log_returns_rebuild_prices (p : R) (ps : list R) :
  0 < p -> Forall (fun q => 0 < q) ps ->
  exists ls,
    log_returns (PdSeries (map Fin (p :: ps))) 1
    = Return (PdSeries (map Fin ls))
    /\ forall t, (t < length (p :: ps))%nat ->
                 p * exp (fold_right Rplus 0 (firstn (S t) ls))
                 = nth t (p :: ps) 1.
Proof.
  intros Hp Hall.
  exists (0 :: ratios_ln p ps); split.
  - apply log_returns_of_prices; assumption.
  - intros t Ht; cbn [length] in Ht.
    cbn [firstn fold_right].
    destruct t as [| t]; cbn [nth].
    + cbn [firstn fold_right]. rewrite Rplus_0_l, exp_0; lra.
    + rewrite Rplus_0_l.
      rewrite (ratios_ln_telescope p ps t Hp Hall) by lia.
      assert (Hnth : 0 < nth t ps 1).
      { assert (Hin : In (nth t ps 1) ps) by (apply nth_In; lia).
        rewrite Forall_forall in Hall; apply Hall; assumption. }
      rewrite exp_ln by (apply Rdiv_lt_0_compat; assumption).
      field; lra.
Qed.

Lemma log_returns_rebuild_prices_witness :
  exists ls,
    log_returns (PdSeries (map Fin [100; 110; 99])) 1
    = Return (PdSeries (map Fin ls))
    /\ forall t, (t < 3)%nat ->
                 100 * exp (fold_right Rplus 0 (firstn (S t) ls))
                 = nth t [100; 110; 99] 1.
Proof.
  apply (log_returns_rebuild_prices 100 [110; 99]).
  - lra.
  - repeat (apply Forall_cons; [lra |]); apply Forall_nil.
Defined.

Lemma simple_of_log_ratios (p : R) (ps : list R) :
  0 < p -> Forall (fun q => 0 < q) ps ->
  map (fun x => F64.sub (F64.exp x) (Fin 1)) (map Fin (ratios_ln p ps))
  = map Fin (pct_changes p ps).
Proof.
  intros Hp Hall; revert p Hp.
  induction Hall as [| q qs Hq _ IH]; intros p Hp; [reflexivity |].
  cbn [ratios_ln pct_changes map F64.exp F64.sub F64.neg F64.add].
  rewrite exp_ln by (apply Rdiv_lt_0_compat; assumption).
  rewrite <- (IH q Hq); f_equal; f_equal; lra.
Qed.

(** X6: log returns and simple returns fit together.  For a Series of
    positive prices, [log_to_pct_return] of its [log_returns] is the
    period-over-period percentage change, [p_t / p_(t-1) - 1], with
    zero in the first place. *)
Theorem log_to_pct_of_log_returns (p : R) (ps : list R) :
  0 < p -> Forall (fun q => 0 < q) ps ->
  exists lr,
    log_returns (PdSeries (map Fin (p :: ps))) 1 = Return lr
    /\ log_to_pct_return lr = PdSeries (map Fin (0 :: pct_changes p ps)).
Proof.
  intros Hp Hall; eexists; split.
  - apply log_returns_of_prices; assumption.
  - unfold log_to_pct_return; cbn [cmap map F64.exp F64.sub F64.neg F64.add].
    rewrite (simple_of_log_ratios p ps Hp Hall).
    f_equal; f_equal; f_equal. rewrite exp_0; lra.
Qed.

Lemma log_to_pct_of_log_returns_witness :
  exists lr,
    log_returns (PdSeries (map Fin [100; 110; 99])) 1 = Return lr
    /\ log_to_pct_return lr
       = PdSeries (map Fin (0 :: pct_changes 100 [110; 99])).
Proof.
  apply (log_to_pct_of_log_returns 100 [110; 99]).
  - lra.
  - repeat (apply Forall_cons; [lra |]); apply Forall_nil.
Defined.

(** ** More on the lower partial moment *)

Lemma dropna_map_dropna (g : f64 -> f64) (xs : list f64) :
  g NaN = NaN ->
  F64.dropna (map g (F64.dropna xs)) = F64.dropna (map g xs).
Proof.
  intro Hg; unfold F64.dropna.
  induction xs as [| x xs IH]; [reflexivity |].
  destruct x; cbn [filter F64.notnan F64.isnan negb map];
    try (rewrite Hg; cbn [F64.notnan F64.isnan negb]; exact IH);
    destruct (F64.notnan (g _)); rewrite IH; reflexivity.
Qed.

Lemma lpm_entry_any_nan (t : f64) (n : Z) :
  n <> 0%Z ->
  F64.power (F64.maximum (F64.sub t NaN) (Fin 0)) (Fin (IZR n)) = NaN.
Proof.
  intro Hn.
  assert (E : F64.sub t NaN = NaN) by (destruct t; reflexivity).
  rewrite E; cbn [F64.maximum].
  apply power_nan. intro H; apply eq_IZR_R0 in H; contradiction.
Qed.

Lemma LPM_one_dimensional (xs : list f64) (t : f64) (n : Z) :
  LPM (NdArray xs) t n
  = Scalar (F64.nanmean
              (map (fun a => F64.power (F64.maximum (F64.sub t a) (Fin 0))
                               (Fin (IZR n))) xs))
  /\ LPM (PdSeries xs) t n
     = Scalar (F64.nanmean
                 (map (fun a => F64.power (F64.maximum (F64.sub t a) (Fin 0))
                                  (Fin (IZR n))) xs)).
Proof.
  split; unfold LPM, np_nanmean, pd_mean, maxzero, clip_min;
    cbn [is_pandas cmap reduce]; rewrite !map_map; reflexivity.
Qed.

(** X8: [LPM] averages over the observations that are present.  For a
    moment order other than zero, the lower partial moment of an
    array or Series is that of the same data with the missing
    observations dropped. *)
Theorem LPM_skips_missing (xs : list f64) (t : f64) (n : Z) :
  n <> 0%Z ->
  LPM (NdArray xs) t n = LPM (NdArray (F64.dropna xs)) t n
  /\ LPM (PdSeries xs) t n = LPM (PdSeries (F64.dropna xs)) t n.
Proof.
  intro Hn.
  destruct (LPM_one_dimensional xs t n) as [Ea Es].
  destruct (LPM_one_dimensional (F64.dropna xs) t n) as [Ea' Es'].
  rewrite Ea, Es, Ea', Es'.
  unfold F64.nanmean.
  rewrite (dropna_map_dropna _ xs (lpm_entry_any_nan t n Hn)).
  split; reflexivity.
Qed.

Lemma LPM_skips_missing_witness :
  LPM (NdArray [NaN; Fin (- 1); NaN]) (Fin 0) 2
  = LPM (NdArray (F64.dropna [NaN; Fin (- 1); NaN])) (Fin 0) 2.
Proof.
  exact (proj1 (LPM_skips_missing [NaN; Fin (- 1); NaN] (Fin 0) 2
                  ltac:(lia))).
Defined.

Lemma dropna_all_missing (xs : list f64) :
  (forall a, In a xs -> a = NaN) -> F64.dropna xs = [].
Proof.
  intro H; unfold F64.dropna; induction xs as [| x xs IH]; [reflexivity |].
  rewrite (H x (or_introl eq_refl)); cbn [filter F64.notnan F64.isnan negb].
  apply IH; intros a Ha; apply H; right; exact Ha.
Qed.

Lemma nanmean_nil : F64.nanmean [] = NaN.
Proof.
  unfold F64.nanmean, F64.mean, F64.count, F64.dropna.
  cbn [filter F64.sum fold_right length INR].
  rewrite div_fin_zero; unfold F64.signed_inf.
  rewrite !Rltb_false by lra; reflexivity.
Qed.

(** X9: with nothing to average the moment is undefined.  When every
    observation of an array or Series is missing (or there is none)
    and the moment order is not zero, [LPM] is [NaN], not zero. *)
Theorem LPM_all_missing (xs : list f64) (t : f64) (n : Z) :
  n <> 0%Z ->
  (forall a, In a xs -> a = NaN) ->
  LPM (NdArray xs) t n = Scalar NaN /\ LPM (PdSeries xs) t n = Scalar NaN.
Proof.
  intros Hn Hall.
  destruct (LPM_one_dimensional xs t n) as [Ea Es].
  rewrite Ea, Es; unfold F64.nanmean.
  rewrite <- (dropna_map_dropna _ xs (lpm_entry_any_nan t n Hn)).
  rewrite (dropna_all_missing xs Hall); cbn [map].
  change (F64.mean (F64.dropna [])) with (F64.nanmean []).
  rewrite nanmean_nil; split; reflexivity.
Qed.

Lemma LPM_all_missing_witness :
  LPM (PdSeries [NaN; NaN]) (Fin 0) 2 = Scalar NaN.
Proof.
  apply (proj2 (LPM_all_missing [NaN; NaN] (Fin 0) 2 ltac:(lia)
                  ltac:(intros a [<- | [<- | []]]; reflexivity))).
Defined.

(** ** Degenerate ratios *)

(** X10: a moment order of zero is not rejected by any check; with a
    valid return type [kappa] gets as far as the root [1.0 / moment]
    and raises [ZeroDivisionError] there. *)
Theorem kappa_moment_zero (returns : container) (t : f64) (rt : string) :
  valid_return_type rt = true ->
  kappa returns t 0 rt = Raise ZeroDivisionError ["kappa"].
Proof.
  intro H; unfold kappa.
  rewrite (validate_valid rt H); py_step.
  rewrite truediv_py_zero; reflexivity.
Qed.

Lemma kappa_moment_zero_witness :
  kappa (NdArray sortino_test_data) (Fin 0) 0 "log"
  = Raise ZeroDivisionError ["kappa"].
Proof. exact (kappa_moment_zero _ (Fin 0) "log" eq_refl). Defined.






(** ** Sortino, Kappa-2 and the two Sortino formulations *)

Lemma mul_one_r (d : f64) : F64.mul d (Fin 1) = d.
Proof.
  destruct d as [a | | |]; cbn [F64.mul]; try reflexivity.
  - f_equal; lra.
  - unfold F64.signed_inf; rewrite Rltb_true by lra; reflexivity.
  - unfold F64.signed_inf.
    rewrite Rltb_false by lra. rewrite Rltb_true by lra. reflexivity.
Qed.

Lemma downside_squares (t : R) (rs : list R) :
  map (fun a => F64.power (F64.maximum (F64.sub (Fin t) a) (Fin 0)) (Fin 2))
      (map Fin rs)
  = map Fin (map (fun r => Rmax (t + - r) 0 * Rmax (t + - r) 0) rs).
Proof.
  rewrite !map_map; apply map_ext; intro r.
  cbn [F64.sub F64.neg F64.add F64.maximum].
  apply power_two, Rmax_r.
Qed.

Lemma sum_of_squares_nonneg (g : R -> R) (rs : list R) :
  0 <= fold_right Rplus 0 (map (fun r => g r * g r) rs).
Proof.
  induction rs as [| r rs IH]; cbn [map fold_right]; [lra |].
  pose proof (Rle_0_sqr (g r)) as H; unfold Rsqr in H; lra.
Qed.

Lemma root_is_sqrt (l : f64) :
  (l = NaN \/ exists x, l = Fin x /\ 0 <= x) ->
  F64.power l (Fin (1 / 2)) = F64.sqrt l.
Proof.
  intros [-> | [x [-> Hx]]].
  - apply power_nan; lra.
  - rewrite sqrt_fin by assumption.
    destruct (Req_dec_T x 0) as [-> | Hnz].
    + rewrite power_zero_pos by lra. rewrite sqrt_0; reflexivity.
    + rewrite power_fin_pos by lra.
      replace (1 / 2) with (/ 2) by lra.
      rewrite Rpower_sqrt by lra; reflexivity.
Qed.

Lemma downside_moment (t : R) (rs : list R) :
  let l := F64.nanmean
             (map (fun a => F64.power (F64.maximum (F64.sub (Fin t) a) (Fin 0))
                              (Fin 2)) (map Fin rs)) in
  l = NaN \/ exists x, l = Fin x /\ 0 <= x.
Proof.
  cbn zeta; rewrite downside_squares, nanmean_fins, length_map.
  destruct rs as [| r rs].
  - left; cbn [map fold_right length INR]; rewrite div_fin_zero.
    unfold F64.signed_inf; rewrite !Rltb_false by lra; reflexivity.
  - right.
    assert (Hn : 0 < INR (length (r :: rs))) by (apply lt_0_INR; cbn; lia).
    rewrite div_fin by lra.
    eexists; split; [reflexivity |].
    apply Rmult_le_pos;
      [apply (sum_of_squares_nonneg (fun r => Rmax (t + - r) 0))
      | left; apply Rinv_0_lt_compat; assumption].
Qed.

(** X12: Sortino is Kappa-2.  On an array or Series of finite log
    returns, for every finite target, [sortino] with factor 1 and
    [kappa] with moment 2 return the same value. *)
Theorem sortino_is_kappa_two (rs : list R) (t : R) :
  sortino (NdArray (map Fin rs)) (Fin t) (Fin 1) "log"
  = kappa (NdArray (map Fin rs)) (Fin t) 2 "log"
  /\ sortino (PdSeries (map Fin rs)) (Fin t) (Fin 1) "log"
     = kappa (PdSeries (map Fin rs)) (Fin t) 2 "log".
Proof.
  destruct (LPM_one_dimensional (map Fin rs) (Fin t) 2) as [Ea Es].
  pose proof (root_is_sqrt _ (downside_moment t rs)) as Hroot.
  cbn zeta in Hroot.
  split; unfold sortino, kappa;
    rewrite !validate_valid by reflexivity; py_step;
    cbn [String.eqb Ascii.eqb Bool.eqb is_pandas];
    rewrite truediv_one_over by lia; py_step.
  - rewrite Ea. unfold np_nanmean, minus;
      cbn [is_pandas cmap reduce rmap rlift2].
    rewrite Hroot, mul_one_r; reflexivity.
  - rewrite Es. unfold pd_mean, minus;
      cbn [is_pandas cmap reduce rmap rlift2].
    rewrite nanmean_shift, Hroot, mul_one_r; reflexivity.
Qed.

Lemma sortino_iid_array_as_series
  (xs : list f64) (b f : f64) (rt : string) (v : f64) :
  sortino_iid (PdSeries xs) b f rt = Return (Scalar v) ->
  sortino_iid (NdArray xs) b f rt = Return (Labeled [(IntLabel 0, v)]).
Proof.
  unfold sortino_iid.
  destruct (validate_return_type rt); cbn [bind frame]; [| discriminate].
  destruct (rt =? "pct"); cbn; intro H; injection H as <-; reflexivity.
Qed.

Lemma sortino_array_as_series (rs : list R) (t : R) (f : f64) :
  sortino (NdArray (map Fin rs)) (Fin t) f "log"
  = sortino (PdSeries (map Fin rs)) (Fin t) f "log".
Proof.
  destruct (LPM_one_dimensional (map Fin rs) (Fin t) 2) as [Ea Es].
  unfold sortino.
  rewrite !validate_valid by reflexivity; py_step.
  cbn [String.eqb Ascii.eqb Bool.eqb is_pandas].
  rewrite Ea, Es. unfold np_nanmean, pd_mean, minus.
  cbn [cmap reduce rmap rlift2].
  rewrite nanmean_shift; reflexivity.
Qed.

Lemma sortino_series_scalar (xs : list f64) (t f : f64) :
  exists v, sortino (PdSeries xs) t f "log" = Return (Scalar v).
Proof.
  unfold sortino; rewrite validate_valid by reflexivity; py_step.
  cbn [String.eqb Ascii.eqb Bool.eqb is_pandas].
  unfold LPM, pd_mean; cbn [is_pandas reduce cmap rmap rlift2].
  eexists; reflexivity.
Qed.

(** X13: the two Sortino formulations agree where the data has no
    gaps.  For finite log returns, target and factor, [sortino] and
    [sortino_iid] return the same scalar on a Series; on a plain
    array the scalar [sortino] returns is the single entry, under the
    column label [0], of what [sortino_iid] returns (the two checks
    of the repository's [test_sortino_iid]). *)
Theorem sortino_formulations_agree (rs : list R) (t f : R) :
  sortino (PdSeries (map Fin rs)) (Fin t) (Fin f) "log"
  = sortino_iid (PdSeries (map Fin rs)) (Fin t) (Fin f) "log"
  /\ exists v,
       sortino (NdArray (map Fin rs)) (Fin t) (Fin f) "log"
       = Return (Scalar v)
       /\ sortino_iid (NdArray (map Fin rs)) (Fin t) (Fin f) "log"
          = Return (Labeled [(IntLabel 0, v)]).
Proof.
  split; [apply sortino_agree_without_gaps |].
  destruct (sortino_series_scalar (map Fin rs) (Fin t) (Fin f)) as [v Hv].
  exists v; split.
  - rewrite sortino_array_as_series; exact Hv.
  - apply sortino_iid_array_as_series.
    rewrite <- sortino_agree_without_gaps; exact Hv.
Qed.

(** ** The Sharpe ratios *)

(** Case analysis on every comparison of reals left in the goal. *)
Ltac real_cases :=
  repeat match goal with
         | |- context [F64.Reqb ?a ?b] =>
             let H := fresh "H" in
             destruct (Req_dec_T a b) as [H | H];
             [rewrite (Reqb_true a b H) | rewrite (Reqb_false a b H)];
             cbn [F64.mul F64.div]; unfold F64.signed_inf
         | |- context [F64.Rltb ?a ?b] =>
             let H := fresh "H" in
             destruct (Rlt_dec a b) as [H | H];
             [rewrite (Rltb_true a b H) | rewrite (Rltb_false a b) by lra];
             cbn [F64.mul F64.div]; unfold F64.signed_inf
         end.

Lemma mul_one_l (m : f64) : F64.mul (Fin 1) m = m.
Proof.
  destruct m as [a | | |]; cbn [F64.mul]; try reflexivity.
  - f_equal; lra.
  - unfold F64.signed_inf; rewrite Rltb_true by lra; reflexivity.
  - unfold F64.signed_inf.
    rewrite Rltb_false by lra. rewrite Rltb_true by lra. reflexivity.
Qed.

Lemma scale_ratio (m s : f64) (f : R) :
  F64.div (F64.mul (Fin f) m) s = F64.mul (F64.div m s) (Fin f).
Proof.
  destruct m as [a | | |], s as [y | | |];
    cbn [F64.mul F64.div]; unfold F64.signed_inf; real_cases;
    try reflexivity;
    try (f_equal; solve [lra | field; assumption]);
    try (exfalso; nra);
    try (exfalso; assert (a = 0) by lra; subst a;
         rewrite ?Rmult_0_r in *; lra).
Qed.

Lemma scale_ratio_nan (m s : f64) :
  F64.div (F64.mul NaN m) s = F64.mul (F64.div m s) NaN.
Proof.
  destruct m, s; cbn [F64.mul F64.div]; try reflexivity;
    real_cases; reflexivity.
Qed.

Lemma sharpe_iid_value (c : container) (b f : f64) (rt : string) :
  valid_return_type rt = true ->
  sharpe_iid c b f rt
  = Return (rlift2 F64.div
              (rmap (F64.mul f)
                 (reduce F64.nanmean
                    (if rt =? "pct" then pct_to_log_return (minus c b)
                     else minus c b)))
              (reduce F64.nanstd1
                 (if rt =? "pct" then pct_to_log_return (minus c b)
                  else minus c b))).
Proof.
  intro H; unfold sharpe_iid; rewrite (validate_valid rt H); py_step.
  destruct (is_pandas c); reflexivity.
Qed.

Lemma scale_reduced (mean std : list f64 -> f64) (f : R) (c : container) :
  rlift2 F64.div (rmap (F64.mul (Fin f)) (reduce mean c)) (reduce std c)
  = rmap (fun v => F64.mul v (Fin f))
      (rlift2 F64.div (rmap (F64.mul (Fin 1)) (reduce mean c)) (reduce std c)).
Proof.
  destruct c as [xs | xs | cols]; cbn [reduce rmap rlift2].
  - rewrite mul_one_l, scale_ratio; reflexivity.
  - rewrite mul_one_l, scale_ratio; reflexivity.
  - f_equal; induction cols as [| [l xs] cs IH];
      cbn [map fst snd zip_labeled]; [reflexivity |].
    rewrite IH, mul_one_l, scale_ratio; reflexivity.
Qed.

(** X14: the factor of [sharpe_iid] is a plain multiplier.  With a
    valid return type and a finite factor [f], the result is the
    result for factor 1 multiplied by [f], entry by entry, degenerate
    (infinite or undefined) ratios included. *)
Theorem sharpe_iid_factor (c : container) (b : f64) (f : R) (rt : string) :
  valid_return_type rt = true ->
  exists r1,
    sharpe_iid c b (Fin 1) rt = Return r1
    /\ sharpe_iid c b (Fin f) rt
       = Return (rmap (fun v => F64.mul v (Fin f)) r1).
Proof.
  intro H; rewrite !(sharpe_iid_value c b _ rt H).
  eexists; split; [reflexivity |].
  rewrite scale_reduced; reflexivity.
Qed.

Lemma sharpe_iid_factor_witness :
  exists r1,
    sharpe_iid (NdArray sharpe_test_data) (Fin (5 / 100)) (Fin 1) "pct"
    = Return r1
    /\ sharpe_iid (NdArray sharpe_test_data) (Fin (5 / 100)) (Fin 16) "pct"
       = Return (rmap (fun v => F64.mul v (Fin 16)) r1).
Proof.
  exact (sharpe_iid_factor (NdArray sharpe_test_data) (Fin (5 / 100)) 16 "pct"
           eq_refl).
Defined.

(** X15: when the Ljung-Box test does not reject, the
    autocorrelation-adjusted Sharpe ratio is the plain one annualised
    by [sqrt q].  For an array or a Series and a valid return type: if
    [sharpe_autocorr_factor] returns a p-value that is not below
    [p_critical] (a [NaN] p-value included), [sharpe_non_iid] returns
    what [sharpe_iid] returns with factor [sqrt q], [q] being the
    rounded horizon. *)
Theorem sharpe_non_iid_not_rejected
  (lib : stats) (c : container) (b p adj pval : f64) (q : option R)
  (rt : string) :
  valid_return_type rt = true ->
  is_dataframe c = false ->
  sharpe_autocorr_factor lib (values c) (horizon q) = Return (adj, pval) ->
  F64.ltb pval p = false ->
  sharpe_non_iid lib c b q p rt
  = sharpe_iid c b (F64.sqrt (Fin (IZR (horizon q)))) rt.
Proof.
  intros Hrt Hdf Hfac Hp.
  unfold sharpe_non_iid.
  rewrite !(sharpe_iid_value c b _ rt Hrt); py_step.
  assert (E : forall m s,
             F64.mul (F64.div (F64.mul (Fin 1) m) s)
               (F64.sqrt (Fin (IZR (horizon q))))
             = F64.div (F64.mul (F64.sqrt (Fin (IZR (horizon q)))) m) s).
  { intros m s; rewrite mul_one_l; cbn [F64.sqrt].
    destruct (F64.Rltb (IZR (horizon q)) 0);
      [rewrite scale_ratio_nan | rewrite scale_ratio]; reflexivity. }
  destruct c as [xs | xs | cols]; [| | discriminate];
    cbn [values] in Hfac; rewrite Hfac; py_step; rewrite Hp;
    destruct (rt =? "pct");
    unfold minus, pct_to_log_return;
    cbn [frame is_pandas cmap reduce rmap rlift2]; rewrite E; reflexivity.
Qed.

Lemma dropna_shift_shorter (b : f64) (xs : list f64) :
  (length (F64.dropna (map (fun r => F64.sub r b) xs))
   <= length (F64.dropna xs))%nat.
Proof.
  unfold F64.dropna; induction xs as [| x xs IH]; [apply le_n |].
  cbn [map filter].
  destruct x; cbn [F64.notnan F64.isnan negb F64.sub F64.add];
    try (destruct (F64.notnan _); cbn [length]; lia).
  exact IH.
Qed.

Lemma nanstd1_few (xs : list f64) :
  (length (F64.dropna xs) <= 1)%nat -> F64.nanstd1 xs = NaN.
Proof.
  intro H; unfold F64.nanstd1, F64.std1.
  apply Nat.leb_le in H; rewrite H; reflexivity.
Qed.

Lemma length_dropna_le (xs : list f64) :
  (length (F64.dropna xs) <= length xs)%nat.
Proof. apply filter_length_le. Qed.

(** X16: one observation gives no Sharpe ratio.  On an array or a
    Series, [sharpe_iid] returns [NaN] when fewer than two log
    returns are present, and, for percentage returns (whose gaps are
    filled before they are counted), when the series has fewer than
    two rows. *)
Theorem sharpe_iid_too_few (c : container) (xs : list f64) (b f : f64) :
  c = NdArray xs \/ c = PdSeries xs ->
  ((length (F64.dropna xs) <= 1)%nat ->
   sharpe_iid c b f "log" = Return (Scalar NaN))
  /\ ((length xs <= 1)%nat ->
      sharpe_iid c b f "pct" = Return (Scalar NaN)).
Proof.
  intro Hc; split; intro Hlen;
    rewrite sharpe_iid_value by reflexivity;
    cbn [String.eqb Ascii.eqb Bool.eqb].
  - pose proof (dropna_shift_shorter b xs) as Hle.
    destruct Hc as [-> | ->]; unfold minus; cbn [cmap reduce rmap rlift2];
      rewrite nanstd1_few by lia; rewrite div_nan_r; reflexivity.
  - destruct Hc as [-> | ->]; unfold minus, pct_to_log_return;
      cbn [is_pandas cmap reduce rmap rlift2];
      (rewrite nanstd1_few;
       [rewrite div_nan_r; reflexivity
       | etransitivity; [apply length_dropna_le |];
         rewrite !length_map; exact Hlen]).
Qed.

Lemma sharpe_iid_too_few_witness :
  sharpe_iid (PdSeries [NaN; Fin (1 / 10); NaN]) (Fin 0) (Fin 1) "log"
  = Return (Scalar NaN).
Proof.
  apply (proj1 (sharpe_iid_too_few _ [NaN; Fin (1 / 10); NaN] (Fin 0) (Fin 1)
                  (or_intror eq_refl))).
  cbn; lia.
Defined.

Lemma autocorr_test_factor :
  sharpe_autocorr_factor plain_stats autocorr_test_data 3
  = Return (Fin (3 / 2), Fin 1).
Proof.
  unfold sharpe_autocorr_factor, sts_acf.
  rewrite autocorr_test_acf.
  change (range (3 - 2)) with [0%Z].
  cbn [mapM].
  change (getitem _ (0 + 1)) with (Return (A := f64) (Fin (1 / 4))).
  py_step.
  cbn [F64.mul F64.sum fold_right F64.add].
  replace (3 + 2 * (IZR (3 - (0 + 1)) * (1 / 4) + 0)) with 4
    by (simpl; lra).
  rewrite sqrt_fin by lra; rewrite sqrt_4.
  rewrite div_fin by lra; reflexivity.
Qed.

Lemma sharpe_non_iid_not_rejected_witness :
  sharpe_non_iid plain_stats (NdArray autocorr_test_data) (Fin 0) (Some 3)
    (Fin (5 / 100)) "log"
  = sharpe_iid (NdArray autocorr_test_data) (Fin 0)
      (F64.sqrt (Fin (IZR (horizon (Some 3))))) "log".
Proof.
  apply (sharpe_non_iid_not_rejected plain_stats (NdArray autocorr_test_data)
           (Fin 0) (Fin (5 / 100)) (Fin (3 / 2)) (Fin 1) (Some 3) "log").
  - reflexivity.
  - reflexivity.
  - unfold horizon; rewrite round_half_even_IZR.
    change (astype_int64 3) with 3%Z. exact autocorr_test_factor.
  - cbn [F64.ltb]; apply Rltb_false; lra.
Defined.

(** ** The rolling Sharpe ratio *)

Lemma nth_rolling (w : nat) (g : list f64 -> f64) (xs : list f64) (i : nat) :
  (i < length xs)%nat -> nth i (rolling w g xs) NaN = window_at w g xs i.
Proof.
  intro Hi; unfold rolling.
  rewrite (nth_indep _ NaN (window_at w g xs 0%nat))
    by (rewrite length_map, length_seq; exact Hi).
  rewrite map_nth, seq_nth by exact Hi; reflexivity.
Qed.

Lemma length_rolling (w : nat) (g : list f64 -> f64) (xs : list f64) :
  length (rolling w g xs) = length xs.
Proof. unfold rolling; rewrite length_map, length_seq; reflexivity. Qed.

Lemma window_std_undefined (w : nat) (xs : list f64) (i : nat) :
  (S i < w)%nat \/ (w <= 1)%nat -> window_at w F64.nanstd1 xs i = NaN.
Proof.
  intros [H | H]; unfold window_at.
  - apply Nat.ltb_lt in H; rewrite H; reflexivity.
  - destruct (S i <? w)%nat; [reflexivity |].
    destruct (forallb _ _); [| reflexivity].
    apply nanstd1_few.
    etransitivity; [apply length_dropna_le |].
    rewrite length_firstn; lia.
Qed.

Lemma rolling_ratio (w : nat) (f : f64) (xs : list f64) :
  let ys := zip_values F64.div
              (map (F64.mul f) (rolling w F64.nanmean xs))
              (rolling w F64.nanstd1 xs) in
  length ys = length xs
  /\ forall i, (i < length xs)%nat -> (S i < w)%nat \/ (w <= 1)%nat ->
               nth i ys NaN = NaN.
Proof.
  cbn zeta.
  assert (Hlen : length (rolling w F64.nanstd1 xs)
                 = length (map (F64.mul f) (rolling w F64.nanmean xs)))
    by (rewrite length_map, !length_rolling; reflexivity).
  split.
  - rewrite length_zip_values by exact Hlen.
    rewrite length_map, length_rolling; reflexivity.
  - intros i Hi Hw.
    rewrite nth_zip_values
      by (exact Hlen || (rewrite length_map, length_rolling; exact Hi)).
    rewrite (nth_rolling w F64.nanstd1 xs i Hi).
    rewrite (window_std_undefined w xs i Hw).
    apply div_nan_r.
Qed.

(** X17: the start of a rolling Sharpe ratio is undefined.  For a
    Series and a valid return type, [sharpe_iid_rolling] returns a
    Series as long as its input whose first [window - 1] entries are
    [NaN], not zero; with a window of one every entry is [NaN]. *)
Theorem sharpe_iid_rolling_start
  (xs : list f64) (w : nat) (b f : f64) (rt : string) :
  valid_return_type rt = true ->
  exists ys,
    sharpe_iid_rolling (PdSeries xs) w b f rt = Return (PdSeries ys)
    /\ length ys = length xs
    /\ forall i, (i < length xs)%nat -> (S i < w)%nat \/ w = 1%nat ->
                 nth i ys NaN = NaN.
Proof.
  intro H; unfold sharpe_iid_rolling.
  rewrite (validate_valid rt H); py_step.
  destruct (rt =? "pct"); unfold minus, pct_to_log_return;
    cbn [is_pandas cmap rolling_of bind frame per_column clift2];
    eexists; (split; [reflexivity |]);
    match goal with
    | |- context [rolling w F64.nanmean ?l] =>
        destruct (rolling_ratio w f l) as [Hlen Hnan];
        assert (El : length l = length xs) by (rewrite !length_map; reflexivity)
    end;
    rewrite El in Hlen, Hnan; (split; [assumption |]);
    intros i Hi [Hw | ->]; apply Hnan; auto.
Qed.

Lemma sharpe_iid_rolling_start_witness :
  exists ys,
    sharpe_iid_rolling (PdSeries sortino_test_data) 3 (Fin 0) (Fin 1) "log"
    = Return (PdSeries ys)
    /\ length ys = length sortino_test_data
    /\ forall i, (i < length sortino_test_data)%nat ->
                 (S i < 3)%nat \/ 3%nat = 1%nat -> nth i ys NaN = NaN.
Proof.
  exact (sharpe_iid_rolling_start sortino_test_data 3 (Fin 0) (Fin 1) "log"
           eq_refl).
Defined.

(** X18: [sharpe_iid_rolling] has no branch for plain arrays.  With a
    valid return type an array gets through the validation and the
    conversion and then fails on [excess.rolling] with
    [AttributeError]. *)
Theorem sharpe_iid_rolling_array
  (xs : list f64) (w : nat) (b f : f64) (rt : string) :
  valid_return_type rt = true ->
  sharpe_iid_rolling (NdArray xs) w b f rt
  = Raise AttributeError ["sharpe_iid_rolling"].
Proof.
  intro H; unfold sharpe_iid_rolling.
  rewrite (validate_valid rt H); py_step.
  destruct (rt =? "pct"); reflexivity.
Qed.

Lemma sharpe_iid_rolling_array_witness :
  sharpe_iid_rolling (NdArray sortino_test_data) 3 (Fin 0) (Fin 1) "pct"
  = Raise AttributeError ["sharpe_iid_rolling"].
Proof.
  exact (sharpe_iid_rolling_array sortino_test_data 3 (Fin 0) (Fin 1) "pct"
           eq_refl).
Defined.

(** ** The adjustment for skew and kurtosis *)

Lemma square_any (s : R) : F64.power (Fin s) (Fin 2) = Fin (s * s).
Proof.
  destruct (Rlt_dec s 0) as [L | L].
  - rewrite square_negative by assumption.
    replace 2 with (INR 2) by (simpl; lra).
    rewrite Rpower_pow by lra. f_equal; simpl; lra.
  - apply power_two; lra.
Qed.

(** X19: the Pezier-White adjustment on numbers.  For a finite Sharpe
    ratio [s], skew [k] and excess kurtosis [e], [adjusted_sharpe]
    is [s * (1 + k/6 * s + e/24 * s^2)]; with zero skew and zero
    excess kurtosis it leaves [s] as it is; and an infinite Sharpe
    ratio does not survive it, even then: the result is [NaN]. *)
Theorem adjusted_sharpe_values (s k e : R) :
  adjusted_sharpe (Scalar (Fin s)) (Scalar (Fin k)) (Scalar (Fin e))
  = Scalar (Fin (s * (1 + k / 6 * s + e / 24 * (s * s))))
  /\ adjusted_sharpe (Scalar (Fin s)) (Scalar (Fin 0)) (Scalar (Fin 0))
     = Scalar (Fin s)
  /\ adjusted_sharpe (Scalar PInf) (Scalar (Fin 0)) (Scalar (Fin 0))
     = Scalar NaN.
Proof.
  assert (G : forall k' e',
             adjusted_sharpe (Scalar (Fin s)) (Scalar (Fin k'))
               (Scalar (Fin e'))
             = Scalar (Fin (s * (1 + k' / 6 * s + e' / 24 * (s * s))))).
  { intros k' e'; unfold adjusted_sharpe; cbn [rmap rlift2].
    rewrite square_any, !div_fin by lra.
    cbn [F64.mul F64.add]; reflexivity. }
  split; [apply G |].
  split.
  - rewrite G; do 2 f_equal; lra.
  - unfold adjusted_sharpe; cbn [rmap rlift2].
    rewrite !div_fin by lra.
    cbn [F64.mul]; unfold F64.signed_inf.
    rewrite !Rltb_false by lra. reflexivity.
Qed.

(** ** The horizon and the autocorrelation factor *)

Lemma getitem_outcome (xs : list f64) (i : Z) :
  (exists v, getitem xs i = Return v) \/ getitem xs i = Raise IndexError [].
Proof.
  unfold getitem.
  destruct ((0 <=? _) && _)%Z; [| right; reflexivity].
  destruct (nth_error _ _); [left; eexists | right]; reflexivity.
Qed.

Lemma getitem_beyond (xs : list f64) (i : Z) :
  (Z.of_nat (length xs) <= i)%Z -> getitem xs i = Raise IndexError [].
Proof.
  intro H; unfold getitem.
  destruct (i <? 0)%Z eqn:E; [lia |].
  replace (i <? Z.of_nat (length xs))%Z with false by lia.
  rewrite andb_false_r; reflexivity.
Qed.

Lemma mapM_index_error {B} (g : Z -> f64 -> B) (acf : list f64)
  (ks : list Z) (k : Z) :
  In k ks ->
  getitem acf (k + 1) = Raise IndexError [] ->
  mapM (fun k => a <- getitem acf (k + 1) ;; Return (g k a)) ks
  = Raise IndexError [].
Proof.
  intros Hin Hk; induction ks as [| k' ks IH]; [contradiction |].
  cbn [mapM].
  destruct (getitem_outcome acf (k' + 1)) as [[v Hv] | Hr].
  - rewrite Hv; cbn [bind].
    destruct Hin as [-> | Hin]; [rewrite Hk in Hv; discriminate |].
    rewrite (IH Hin); reflexivity.
  - rewrite Hr; reflexivity.
Qed.

Lemma in_range (k n : Z) : (0 <= k < n)%Z -> In k (range n).
Proof.
  intro H; unfold range.
  apply in_map_iff; exists (Z.to_nat k); split; [lia |].
  apply in_seq; lia.
Qed.

Lemma length_acf_biased (xs : list f64) (q : Z) :
  length (acf_biased xs q) = Nat.min (Z.to_nat (q + 1)) (length xs).
Proof. unfold acf_biased; rewrite length_map, length_seq; reflexivity. Qed.

(** X21: the horizon needs enough data.  For a horizon [q >= 3] and a
    non-empty series of fewer than [q - 1] observations the autocorrelation
    function has too few lags, and [sharpe_autocorr_factor] raises
    [IndexError] on [acf[k + 1]]. *)
Theorem sharpe_autocorr_factor_short_series
  (lib : stats) (xs : list f64) (q : Z) :
  xs <> [] ->
  (3 <= q)%Z ->
  (Z.of_nat (length xs) < q - 1)%Z ->
  sharpe_autocorr_factor lib xs q
  = Raise IndexError ["sharpe_autocorr_factor"].
Proof.
  intros _ Hq Hlen; unfold sharpe_autocorr_factor, sts_acf.
  rewrite (mapM_index_error _ (acf_biased xs q) (range (q - 2)) (q - 3)).
  - reflexivity.
  - apply in_range; lia.
  - apply getitem_beyond; rewrite length_acf_biased; lia.
Qed.

Lemma sharpe_autocorr_factor_short_series_witness :
  sharpe_autocorr_factor plain_stats sortino_test_data 255
  = Raise IndexError ["sharpe_autocorr_factor"].
Proof.
  apply sharpe_autocorr_factor_short_series; [discriminate | lia | cbn; lia].
Defined.

(** X22: at a horizon of two or less no autocorrelation enters.  For
    [q <= 2] the list of weighted lags is empty, and whenever the
    p-value is there [sharpe_autocorr_factor] returns the factor
    [q / sqrt q] of independent returns, whatever the series. *)
Theorem sharpe_autocorr_factor_small_horizon
  (lib : stats) (xs : list f64) (q : Z) (p : f64) :
  (q <= 2)%Z ->
  getitem (ljungbox_pvalues lib xs q) (-2) = Return p ->
  sharpe_autocorr_factor lib xs q
  = Return (F64.div (Fin (IZR q)) (F64.sqrt (Fin (IZR q))), p).
Proof.
  intros Hq Hp; unfold sharpe_autocorr_factor, sts_acf.
  replace (range (q - 2)) with (@nil Z)
    by (unfold range; replace (Z.to_nat (q - 2)) with 0%nat by lia;
        reflexivity).
  cbn [mapM bind F64.sum fold_right F64.mul F64.add].
  rewrite Hp; cbn [bind frame].
  replace (IZR q + 2 * 0) with (IZR q) by lra; reflexivity.
Qed.

Lemma sharpe_autocorr_factor_small_horizon_witness :
  sharpe_autocorr_factor plain_stats autocorr_test_data 2
  = Return (F64.div (Fin 2) (F64.sqrt (Fin 2)), Fin 1).
Proof.
  apply (sharpe_autocorr_factor_small_horizon plain_stats autocorr_test_data
           2 (Fin 1)).
  - lia.
  - reflexivity.
Defined.

(** ** Plotting in [omega_empirical] *)

(** X23: [omega_empirical] cannot plot.  With [plot=True] the branch
    reaches [plt], which the module never imports: the call never
    returns, and for a non-empty one-dimensional input, a valid
    return type and a grid size that is not negative the exception is
    [NameError]. *)
Theorem omega_empirical_plot
  (lib : stats) (returns : container) (t : f64) (rt : string) (steps : Z) :
  raises (omega_empirical lib returns t rt true steps) = true
  /\ (valid_return_type rt = true ->
      is_dataframe returns = false ->
      values returns <> [] ->
      (0 <= steps)%Z ->
      omega_empirical lib returns t rt true steps
      = Raise NameError ["omega_empirical"]).
Proof.
  split.
  - unfold omega_empirical.
    destruct (validate_return_type rt); cbn [bind frame raises];
      [| reflexivity].
    destruct (ECDF _); cbn [bind frame raises]; [| reflexivity].
    destruct (method_min _); cbn [bind frame raises]; [| reflexivity].
    destruct (method_max _); cbn [bind frame raises]; [| reflexivity].
    destruct (linspace _ _ _); reflexivity.
  - intros Hrt Hdf Hne Hsteps.
    unfold omega_empirical; rewrite (validate_valid rt Hrt); py_step.
    pose proof (pct_to_log_return_kind returns) as Hkind.
    set (rs := if rt =? "pct" then pct_to_log_return returns else returns).
    assert (Hrs : exists x xs, rs = NdArray (x :: xs) \/ rs = PdSeries (x :: xs)).
    { subst rs. destruct returns as [xs | xs | cols]; [| | discriminate];
        cbn [values] in Hne; destruct (rt =? "pct").
      - destruct (pct_to_log_return (NdArray xs)) as [ys | ys | cs];
          try contradiction.
        destruct ys as [| y ys]; [destruct xs; [contradiction | discriminate] |].
        eauto.
      - destruct xs; [contradiction | eauto].
      - destruct (pct_to_log_return (PdSeries xs)) as [ys | ys | cs];
          try contradiction.
        destruct ys as [| y ys]; [destruct xs; [contradiction | discriminate] |].
        eauto.
      - destruct xs; [contradiction | eauto]. }
    destruct Hrs as [x [xs [-> | ->]]]; cbn [ECDF method_min method_max bind];
      unfold reduce; cbn [bind].
    + unfold linspace.
      destruct (steps <? 0)%Z eqn:Hneg; [lia |].
      destruct (steps =? 1)%Z; reflexivity.
    + destruct (F64.dropna (x :: xs)); unfold linspace;
        (destruct (steps <? 0)%Z eqn:Hneg; [lia |]);
        destruct (steps =? 1)%Z; reflexivity.
Qed.

Lemma omega_empirical_plot_witness :
  omega_empirical plain_stats (PdSeries sortino_test_data) (Fin 0) "log"
    true 1000
  = Raise NameError ["omega_empirical"].
Proof.
  apply (proj2 (omega_empirical_plot plain_stats (PdSeries sortino_test_data)
                  (Fin 0) "log" 1000)).
  - reflexivity.
  - reflexivity.
  - discriminate.
  - lia.
Defined.

(** ** The annualizers *)

(** X24: the two annualizers agree.  For Python numbers, a finite
    total log return [L], [days > 0] and [ann_factor > 0]: if
    [annualized_log_return] gives [l] for [L], then
    [annualized_pct_return] gives [exp l - 1] for the growth multiple
    [exp L]. *)
Theorem annualizers_agree (L d a : R) :
  0 < d -> 0 < a ->
  exists l,
    annualized_log_return (PyNum (Fin L)) (PyNum (Fin d)) (PyNum (Fin a))
    = Return (PyNum (Fin l))
    /\ annualized_pct_return (PyNum (Fin (exp L))) (PyNum (Fin d))
         (PyNum (Fin a))
       = Return (NpNum (Fin (exp l - 1))).
Proof.
  intros Hd Ha.
  assert (Hy : d / a <> 0) by (apply quotient_nonzero; lra).
  assert (Hinv : 1 / (d / a) <> 0).
  { intro E. apply Rmult_integral in E; destruct E as [E | E]; [lra |].
    apply Rinv_neq_0_compat in Hy; contradiction. }
  exists (L / (d / a)); split.
  - unfold annualized_log_return.
    rewrite truediv_py_fin by lra; py_step.
    rewrite truediv_py_fin by assumption; reflexivity.
  - unfold annualized_pct_return.
    rewrite truediv_py_fin by lra; py_step.
    rewrite truediv_py_fin by assumption; py_step.
    rewrite power_fin_pos by (apply exp_pos || assumption).
    cbn [F64.sub F64.neg F64.add]; do 3 f_equal.
    unfold Rpower; rewrite ln_exp.
    unfold Rminus; f_equal; f_equal; field; split; lra.
Qed.

Lemma annualizers_agree_witness :
  exists l,
    annualized_log_return (PyNum (Fin (1 / 2))) (PyNum (Fin 827))
      (PyNum (Fin 365))
    = Return (PyNum (Fin l))
    /\ annualized_pct_return (PyNum (Fin (exp (1 / 2)))) (PyNum (Fin 827))
         (PyNum (Fin 365))
       = Return (NpNum (Fin (exp l - 1))).
Proof.
  apply (annualizers_agree (1 / 2) 827 365); lra.
Defined.

(** X25: one year is left as it is.  With [days] equal to a positive
    [ann_factor] (Python numbers), [annualized_log_return] returns
    the total log return itself and [annualized_pct_return] returns
    the growth multiple minus one, for a positive multiple. *)
Theorem annualize_one_year (total a : R) :
  0 < a ->
  annualized_log_return (PyNum (Fin total)) (PyNum (Fin a)) (PyNum (Fin a))
  = Return (PyNum (Fin total))
  /\ (0 < total ->
      annualized_pct_return (PyNum (Fin total)) (PyNum (Fin a))
        (PyNum (Fin a))
      = Return (NpNum (Fin (total - 1)))).
Proof.
  intro Ha.
  assert (E : a / a = 1) by (field; lra).
  split; [| intro Ht].
  - unfold annualized_log_return.
    rewrite truediv_py_fin by lra; py_step.
    rewrite E, truediv_py_fin by lra.
    cbn [bind frame]; do 3 f_equal; lra.
  - unfold annualized_pct_return.
    rewrite truediv_py_fin by lra; py_step.
    rewrite E, truediv_py_fin by lra; py_step.
    replace (1 / 1) with 1 by lra.
    rewrite power_one by lra.
    cbn [F64.sub F64.neg F64.add]; do 3 f_equal.
Qed.

Lemma annualize_one_year_witness :
  annualized_log_return (PyNum (Fin (1 / 2))) (PyNum (Fin 365))
    (PyNum (Fin 365))
  = Return (PyNum (Fin (1 / 2))).
Proof.
  exact (proj1 (annualize_one_year (1 / 2) 365 ltac:(lra))).
Defined.

(** ** Column by column *)

(** X26: a DataFrame is handled one column at a time.  With a valid
    return type, [sharpe_iid] and [sortino] of a DataFrame return a
    Series that carries, under each column's label, what the function
    returns for that column taken as a Series. *)
Theorem ratios_column_by_column
  (cols : list (label * list f64)) (b f : f64) (rt : string) :
  valid_return_type rt = true ->
  (exists vs,
      sharpe_iid (PdDataFrame cols) b f rt = Return (Labeled vs)
      /\ Forall2 (fun lc lv =>
                    fst lv = fst lc
                    /\ sharpe_iid (PdSeries (snd lc)) b f rt
                       = Return (Scalar (snd lv))) cols vs)
  /\ (exists vs,
         sortino (PdDataFrame cols) b f rt = Return (Labeled vs)
         /\ Forall2 (fun lc lv =>
                       fst lv = fst lc
                       /\ sortino (PdSeries (snd lc)) b f rt
                          = Return (Scalar (snd lv))) cols vs).
Proof.
  intro H; split.
  - unfold sharpe_iid; rewrite (validate_valid rt H); py_step.
    destruct (rt =? "pct"); unfold minus, pct_to_log_return, pd_mean, pd_std;
      cbn [is_pandas cmap reduce rmap rlift2];
      (eexists; split; [reflexivity |]);
      induction cols as [| [l xs] cs IH]; cbn [map fst snd zip_labeled];
      constructor; try exact IH; split; reflexivity.
  - unfold sortino; rewrite (validate_valid rt H); py_step.
    destruct (rt =? "pct"); unfold LPM, pct_to_log_return, pd_mean;
      cbn [is_pandas cmap reduce rmap rlift2];
      (eexists; split; [reflexivity |]);
      induction cols as [| [l xs] cs IH]; cbn [map fst snd zip_labeled];
      constructor; try exact IH; split; reflexivity.
Qed.

Lemma ratios_column_by_column_witness :
  exists vs,
    sharpe_iid (PdDataFrame [(StrLabel "a", sortino_test_data)]) (Fin 0)
      (Fin 1) "log"
    = Return (Labeled vs)
    /\ Forall2 (fun lc lv =>
                  fst lv = fst lc
                  /\ sharpe_iid (PdSeries (snd lc)) (Fin 0) (Fin 1) "log"
                     = Return (Scalar (snd lv)))
         [(StrLabel "a", sortino_test_data)] vs.
Proof.
  exact (proj1 (ratios_column_by_column [(StrLabel "a", sortino_test_data)]
                  (Fin 0) (Fin 1) "log" eq_refl)).
Defined.
